(** * Orbital elements and dynamical invariants (Guía 1, Ejercicios 7 and 8)

    A shallow embedding of the two conversion routines [ae2Eh] and [Eh2ae]
    of [Guía 1 - Ejercicio 7.py] (ellipses only) and of
    [Guía 1 - Ejercicio 8.py] (every conic), and of the true-anomaly
    sampling of their [plot_orbit].

    The Python code is written once, over an interface of the float
    operations it uses, and read at two carriers:
    - [xreal]: exact real arithmetic, with one extra value for the [nan]
      that [np.sqrt] returns on a negative argument;
    - [float]: IEEE binary64, the arithmetic the program really runs on,
      where every definition evaluates. *)

From Stdlib Require Import PrimFloat.
From Stdlib Require Import Reals Lra Lia List String Bool.
Import ListNotations.

Set Warnings "-inexact-float".

(** ** Outcome of a call *)

Inductive exn : Type :=
| ValueError (msg : string)
| ZeroDivisionError
| OverflowError.

Inductive result (A : Type) : Type :=
| Return (x : A)
| Raise (err : exn).

Arguments Return {A} x.
Arguments Raise {A} err.

Definition bind {A B : Type} (c : result A) (k : A -> result B) : result B :=
  match c with
  | Return x => k x
  | Raise err => Raise err
  end.

Notation "x <- c ;; k" := (bind c (fun x => k))
  (at level 61, c at next level, right associativity).
Notation "' p <- c ;; k" := (bind c (fun x => let p := x in k))
  (at level 61, p pattern, c at next level, right associativity).

(** The specification calls the error of the conversions
    [InvalidOrbitError]; the code raises it as a [ValueError]. *)
Definition invalid_orbit {A : Type} (r : result A) : bool :=
  match r with
  | Raise (ValueError _) => true
  | _ => false
  end.

Definition returns {A : Type} (r : result A) : bool :=
  match r with
  | Return _ => true
  | Raise _ => false
  end.

(** ** The float operations of the source *)

Class PyFloat (T : Type) : Type := {
  zero : T;
  one : T;
  two : T;
  neg : T -> T;              (* -x *)
  sub : T -> T -> T;         (* x - y *)
  mul : T -> T -> T;         (* x * y *)
  quot : T -> T -> T;        (* x / y for a divisor other than zero *)
  fabs : T -> T;             (* abs(x) *)
  np_sqrt : T -> T;          (* np.sqrt(x): nan below zero, no exception *)
  leb : T -> T -> bool;      (* x <= y *)
  ltb : T -> T -> bool;      (* x < y *)
  eqb : T -> T -> bool;      (* x == y *)
  isinf : T -> bool
}.

Section Operators.
Context {T : Type} `{PyFloat T}.

(** [x / y] on Python floats: a zero divisor raises. ([np.sqrt] returns a
    numpy scalar, on which [/] and [**] give [inf] or [nan] with a warning
    where a Python float raises; the two agree whenever the divisor is not
    zero and the square is finite.) *)
Definition truediv (x y : T) : result T :=
  if eqb y zero then Raise ZeroDivisionError else Return (quot x y).

(** [x ** 2] on Python floats, taken as the rounded product [x * x]: a
    finite base whose square leaves the float range raises. (Python calls
    the C library's [pow], whose result can differ from the rounded
    product in the last place; at the real carrier the two are one.) *)
Definition pow2 (x : T) : result T :=
  let r := mul x x in
  if isinf r && negb (isinf x) then Raise OverflowError else Return r.
End Operators.

(** ** Exact carrier: the reals and [nan] *)

Inductive xreal : Type :=
| Fin (r : R)
| NaN.

Coercion Fin : R >-> xreal.

Module Exact.
Open Scope R_scope.

Definition lift1 (f : R -> R) (x : xreal) : xreal :=
  match x with
  | Fin r => Fin (f r)
  | NaN => NaN
  end.

Definition lift2 (f : R -> R -> R) (x y : xreal) : xreal :=
  match x, y with
  | Fin r, Fin s => Fin (f r s)
  | _, _ => NaN
  end.

(** Every comparison with [nan] is false. *)
Definition cmp (f : R -> R -> bool) (x y : xreal) : bool :=
  match x, y with
  | Fin r, Fin s => f r s
  | _, _ => false
  end.

Definition Rleb (r s : R) : bool := if Rle_dec r s then true else false.
Definition Rltb (r s : R) : bool := if Rlt_dec r s then true else false.
Definition Reqb (r s : R) : bool := if Req_dec_T r s then true else false.

Definition xsqrt (x : xreal) : xreal :=
  match x with
  | Fin r => if Rlt_dec r 0 then NaN else Fin (sqrt r)
  | NaN => NaN
  end.

Arguments xsqrt : simpl never.

#[export] Instance xreal_float : PyFloat xreal := {|
  zero := Fin 0;
  one := Fin 1;
  two := Fin 2;
  neg := lift1 Ropp;
  sub := lift2 Rminus;
  mul := lift2 Rmult;
  quot := lift2 Rdiv;
  fabs := lift1 Rabs;
  np_sqrt := xsqrt;
  leb := cmp Rleb;
  ltb := cmp Rltb;
  eqb := cmp Reqb;
  isinf := fun _ => false
|}.
End Exact.
Export Exact.

(** ** Binary64 carrier *)

Module Binary64.
#[export] Instance float_float : PyFloat float := {|
  zero := 0%float;
  one := 1%float;
  two := 2%float;
  neg := PrimFloat.opp;
  sub := PrimFloat.sub;
  mul := PrimFloat.mul;
  quot := PrimFloat.div;
  fabs := PrimFloat.abs;
  np_sqrt := PrimFloat.sqrt;
  leb := PrimFloat.leb;
  ltb := PrimFloat.ltb;
  eqb := PrimFloat.eqb;
  isinf := PrimFloat.is_infinity
|}.
End Binary64.
Export Binary64.

(** [np.linspace(start, stop, num)] with its default [endpoint=True]:
    [arange(0, num) * step + start] with [step = (stop - start) / (num - 1)],
    the last sample then overwritten by [stop]. *)
Definition linspace (start stop : R) (num : nat) : list R :=
  match num with
  | O => []
  | S O => [start]
  | S n =>
      let step := ((stop - start) / INR n)%R in
      map (fun i => (INR i * step + start)%R) (seq 0 n) ++ [stop]
  end.

Arguments linspace : simpl never.

(** ** Ejercicio 7: ellipses only *)

Module Ej7.
Section Conversions.
Context {T : Type} `{PyFloat T}.

Definition ae2Eh (a e mu : T) : result (T * T) :=
  if leb a zero then
    Raise (ValueError "> El semi-eje mayor debe ser positivo.")
  else if negb (leb zero e && ltb e one) then
    Raise (ValueError
      "> La excentricidad debe estar entre 0 (incluido) y 1 (excluido).")
  else
    epsilon <- truediv (neg mu) (mul two a) ;;
    e2 <- pow2 e ;;
    let h := np_sqrt (mul (mul mu a) (sub one e2)) in
    Return (epsilon, h).

Definition Eh2ae (epsilon h mu : T) : result (T * T) :=
  if leb zero epsilon then
    Raise (ValueError
      "> La energía debe ser negativa para órbitas elípticas.")
  else if leb h zero then
    Raise (ValueError "> El momento angular debe ser positivo.")
  else
    a <- truediv (neg mu) (mul two epsilon) ;;
    h2 <- pow2 h ;;
    q <- truediv h2 (mul mu a) ;;
    let e2 := sub one q in
    if ltb e2 zero then
      Raise (ValueError
        "> Los valores no representan una órbita elíptica válida.")
    else
      Return (a, np_sqrt e2).

(** The round trip of the test case: [ae2Eh], then [Eh2ae] on the pair
    it returned, with the same [mu]. (In the program the [h] handed over
    is the numpy scalar of [np.sqrt]: see [truediv].) *)
Definition roundtrip (a e mu : T) : result (T * T) :=
  '(epsilon, h) <- ae2Eh a e mu ;;
  Eh2ae epsilon h mu.
End Conversions.

(** What [plot_orbit] computes before it draws: the invariants of the
    annotation box and the sampled true anomaly. The radius, the
    Cartesian coordinates and the figure are array arithmetic and calls
    of the plotting backend, which raise nothing and are left out. *)
Record figure : Type := {
  texto : xreal * xreal;
  theta : list R
}.

Definition plot_orbit (a e mu : xreal) : result figure :=
  eh <- ae2Eh a e mu ;;
  Return {| texto := eh; theta := linspace 0 (2 * PI) 600 |}.
End Ej7.

(** ** Ejercicio 8: every conic *)

Module Ej8.
Section Conversions.
Context {T : Type} `{PyFloat T}.

Definition ae2Eh (a e mu : T) : result (T * T) :=
  if ltb e zero then
    Raise (ValueError "> La excentricidad no puede ser negativa.")
  else if eqb e one then
    let h := np_sqrt (mul mu a) in
    let epsilon := zero in
    Return (epsilon, h)
  else if (ltb e one && leb a zero) || (ltb one e && leb zero a) then
    Raise (ValueError
      "> La combinación de a y e no representa una órbita válida.")
  else
    epsilon <- truediv (neg mu) (mul two a) ;;
    e2 <- pow2 e ;;
    let h := np_sqrt (mul (mul mu (fabs a)) (fabs (sub one e2))) in
    Return (epsilon, h).

Definition Eh2ae (epsilon h mu : T) : result (T * T) :=
  if leb h zero then
    Raise (ValueError "> El momento angular debe ser positivo.")
  else if eqb epsilon zero then
    h2 <- pow2 h ;;
    p <- truediv h2 mu ;;
    let a := p in
    let e := one in
    Return (a, e)
  else
    a <- (if ltb zero epsilon
          then truediv (neg mu) (mul two epsilon)
          else truediv (neg mu) (mul two epsilon)) ;;
    h2 <- pow2 h ;;
    q <- truediv h2 (mul mu a) ;;
    let e2 := sub one q in
    if ltb e2 zero then
      Raise (ValueError "> Los valores no representan una órbita válida.")
    else
      Return (a, np_sqrt e2).
End Conversions.

(** As in Ejercicio 7, with the name of the conic in the title; [theta]
    is sampled before the conic is looked at. *)
Record figure : Type := {
  texto : xreal * xreal;
  theta : list R;
  tipo : string
}.

Definition plot_orbit (a e mu : xreal) : result figure :=
  eh <- ae2Eh a e mu ;;
  let theta := linspace (- PI + 1 / 100) (PI - 1 / 100) 600 in
  let tipo :=
    if eqb e one then "Parabólica"%string
    else if ltb e one then "Elíptica"%string else "Hiperbólica"%string in
  Return {| texto := eh; theta := theta; tipo := tipo |}.
End Ej8.

(** ** Vocabulary of the statements *)

(** Agreement of two floats within a relative tolerance. *)
Definition within_rel (tol x y : float) : bool :=
  PrimFloat.leb (PrimFloat.abs (x - y)) (tol * PrimFloat.abs y).

(** A float strictly inside an interval: how a quoted decimal is read. *)
Definition between (lo x hi : float) : bool :=
  PrimFloat.ltb lo x && PrimFloat.ltb x hi.

(** The inputs that the guards of the general [ae2Eh] turn down. *)
Definition inconsistent (a e : R) : Prop :=
  (e < 0 \/ (e < 1 /\ a <= 0) \/ (1 < e /\ 0 <= a))%R.

(** ** The curve drawn by Ejercicio 7 *)

(** The arrays that [plot_orbit] of Ejercicio 7 computes after [ae2Eh] has
    accepted [(a, e)]: the semi-latus-rectum [p], the radius [r] over the
    sampled [theta], and the Cartesian coordinates [x], [y] in km that go
    to [ax.plot]. The float [np.pi] is read as the real number pi. *)
Module Ej7Curve.
Open Scope R_scope.

Definition theta : list R := linspace 0 (2 * PI) 600.

Definition p (a e : R) : R := a * (1 - e * e).

Definition r (a e : R) : list R :=
  map (fun t => p a e / (1 + e * cos t)) theta.

Definition x (a e : R) : list R :=
  map (fun rt => fst rt * cos (snd rt) / 1000) (combine (r a e) theta).

Definition y (a e : R) : list R :=
  map (fun rt => fst rt * sin (snd rt) / 1000) (combine (r a e) theta).

Definition curve (a e : R) : list (R * R) := combine (x a e) (y a e).
End Ej7Curve.

(** ** The curve drawn by Ejercicio 8 *)

(** The arrays of [plot_orbit] of Ejercicio 8, as it computes them from
    [(a, e, mu)] and the [h] that [ae2Eh] returned. An entry is a real or
    [NaN], which here stands for any entry that is not finite: [nan], or
    the [inf] that numpy gives for a division by zero. Neither is drawn. *)
Module Ej8Curve.
Open Scope R_scope.

Definition theta : list R := linspace (- PI + 1 / 100) (PI - 1 / 100) 600.

(** Division of numpy scalars and arrays: nothing is raised. *)
Definition np_div (x y : xreal) : xreal :=
  match x, y with
  | Fin u, Fin v => if Reqb v 0 then NaN else Fin (u / v)
  | _, _ => NaN
  end.

Definition np_add (x y : xreal) : xreal := lift2 Rplus x y.

(** [r[r > 1e8] = np.nan] on one entry. *)
Definition mask (r : xreal) : xreal :=
  if ltb (Fin 100000000) r then NaN else r.

Definition p (a e mu h : xreal) : xreal :=
  if eqb e one then np_div (mul h h) mu
  else mul a (sub one (mul e e)).

Definition r (a e mu h : xreal) : list xreal :=
  map (fun t =>
         mask (if eqb e one
               then np_div (p a e mu h) (np_add one (Fin (cos t)))
               else np_div (p a e mu h)
                           (np_add one (mul e (Fin (cos t))))))
      theta.

Definition x (a e mu h : xreal) : list xreal :=
  map (fun rt => np_div (mul (fst rt) (Fin (cos (snd rt)))) (Fin 1000))
      (combine (r a e mu h) theta).

Definition y (a e mu h : xreal) : list xreal :=
  map (fun rt => np_div (mul (fst rt) (Fin (sin (snd rt)))) (Fin 1000))
      (combine (r a e mu h) theta).

(** The series that go to [ax.plot], once [ae2Eh] has accepted the input. *)
Definition curve (a e mu : xreal) : result (list (xreal * xreal)) :=
  eh <- Ej8.ae2Eh a e mu ;;
  Return (combine (x a e mu (snd eh)) (y a e mu (snd eh))).
End Ej8Curve.

(** ** The console menu of Ejercicio 8 *)

(** The float operations when the operand of [**] is a numpy scalar, as
    the eccentricity that [Eh2ae] returns from [np.sqrt] is: the square
    overflows to [inf] and nothing is raised. *)
Definition numpy_operand : PyFloat float := {|
  zero := 0%float;
  one := 1%float;
  two := 2%float;
  neg := PrimFloat.opp;
  sub := PrimFloat.sub;
  mul := PrimFloat.mul;
  quot := PrimFloat.div;
  fabs := PrimFloat.abs;
  np_sqrt := PrimFloat.sqrt;
  leb := PrimFloat.leb;
  ltb := PrimFloat.ltb;
  eqb := PrimFloat.eqb;
  isinf := fun _ => false
|}.

Module Shell.

(** What the session writes: a [print], the prompt of an [input], or the
    figure that [plot_orbit(a, e, MU)] shows, with its annotation. *)
Inductive event : Type :=
| Print (s : string)
| Prompt (s : string)
| Show (a e : float) (texto : float * float).

(** How the session ends: option 3, an [input] with nothing left to read
    ([EOFError]), or an exception that no [except] clause catches. *)
Inductive ending : Type :=
| Exited
| EndOfInput
| Uncaught (err : exn).

(** The line feed of the string literals. *)
Definition nl : string := String (Ascii.ascii_of_nat 10) EmptyString.

Definition banner : list event :=
  [ Print (nl
           ++ "=========================== MENÚ ===========================");
    Print "< 1 > Ingresar semi-eje mayor y excentricidad (a, e)";
    Print "< 2 > Ingresar energía específica y momento angular (ε, h)";
    Print "< 3 > Salir del programa";
    Print "============================================================" ].

Definition MU : float := 3.986e14%float.

(** [plot_orbit] as the menu sees it: it raises what its [ae2Eh] raises,
    or shows the figure. *)
Definition plot_orbit (ops : PyFloat float) (a e : float) : result event :=
  texto <- @Ej8.ae2Eh float ops a e MU ;;
  Return (Show a e texto).

Definition say (out : list event) (next : list event * ending)
  : list event * ending :=
  (out ++ fst next, snd next).

(** The [try] statement of the loop: a [ValueError] is printed and the
    loop goes on; [NotImplementedError] is never raised; anything else
    leaves [menu]. *)
Definition try_except (body : result (list event))
    (next : list event * ending) : list event * ending :=
  match body with
  | Return out => say out next
  | Raise (ValueError msg) => say [Print ("Error: " ++ msg)] next
  | Raise err => ([], Uncaught err)
  end.

Section Menu.
(** [float(s)] of the builtins: [None] where it raises its [ValueError],
    whose message is [to_float_error s]. *)
Variable to_float : string -> option float.
Variable to_float_error : string -> string.

Definition float_ (s : string) : result float :=
  match to_float s with
  | Some v => Return v
  | None => Raise (ValueError (to_float_error s))
  end.

(** [menu()] on the lines typed at the console. A [print] and the reading
    of a line are taken not to fail, the end of the input apart: what
    they can raise on a broken console is outside this model. *)
Fixpoint menu (lines : list string) : list event * ending :=
  say (banner ++ [Prompt (nl ++ "> Seleccione una opción: ")])
  match lines with
  | [] => ([], EndOfInput)
  | opcion :: rest =>
    if (opcion =? "1")%string then
      say [Prompt "> Ingrese el semi-eje mayor [m]: "]
      match rest with
      | [] => ([], EndOfInput)
      | sa :: rest1 =>
        match float_ sa with
        | Raise err => try_except (Raise err) (menu rest1)
        | Return a =>
          say [Prompt "> Ingrese la excentricidad: "]
          match rest1 with
          | [] => ([], EndOfInput)
          | se :: rest2 =>
            try_except
              (e <- float_ se ;;
               shown <- plot_orbit float_float a e ;;
               Return [shown])
              (menu rest2)
          end
        end
      end
    else if (opcion =? "2")%string then
      say [Prompt "> Ingrese la energía específica [J/kg]: "]
      match rest with
      | [] => ([], EndOfInput)
      | sepsilon :: rest1 =>
        match float_ sepsilon with
        | Raise err => try_except (Raise err) (menu rest1)
        | Return epsilon =>
          say [Prompt "> Ingrese el momento angular específico [m²/s]: "]
          match rest1 with
          | [] => ([], EndOfInput)
          | sh :: rest2 =>
            try_except
              (h <- float_ sh ;;
               ae <- @Ej8.Eh2ae float float_float epsilon h MU ;;
               shown <- plot_orbit numpy_operand (fst ae) (snd ae) ;;
               Return [shown])
              (menu rest2)
          end
        end
      end
    else if (opcion =? "3")%string then
      ([Print ">> ¡Gracias por utilizar el programa!"], Exited)
    else
      say [Print ">> Opción inválida. Intente nuevamente."] (menu rest)
  end.
End Menu.
End Shell.

(** A console that understands the four literals of the examples. *)
Definition to_float_demo (s : string) : option float :=
  if (s =? "-1e7")%string then Some (-1e7)%float
  else if (s =? "1e200")%string then Some 1e200%float
  else if (s =? "1.5e7")%string then Some 1.5e7%float
  else if (s =? "0.6")%string then Some 0.6%float
  else None.

(** * Properties *)

(** ** Deciding the order of the reals *)

Section RealTests.
Open Scope R_scope.
Variables r s : R.

Lemma Rleb_true : r <= s -> Rleb r s = true.
Proof.
  intro Hle; unfold Rleb.
  destruct (Rle_dec r s); [reflexivity | contradiction].
Qed.

Lemma Rleb_false : s < r -> Rleb r s = false.
Proof.
  intro Hlt; unfold Rleb.
  destruct (Rle_dec r s); [lra | reflexivity].
Qed.

Lemma Rltb_true : r < s -> Rltb r s = true.
Proof.
  intro Hlt; unfold Rltb.
  destruct (Rlt_dec r s); [reflexivity | contradiction].
Qed.

Lemma Rltb_false : s <= r -> Rltb r s = false.
Proof.
  intro Hle; unfold Rltb.
  destruct (Rlt_dec r s); [lra | reflexivity].
Qed.

Lemma Reqb_true : r = s -> Reqb r s = true.
Proof.
  intro Heq; unfold Reqb.
  destruct (Req_dec_T r s); [reflexivity | contradiction].
Qed.

Lemma Reqb_false : r <> s -> Reqb r s = false.
Proof.
  intro Hne; unfold Reqb.
  destruct (Req_dec_T r s); [contradiction | reflexivity].
Qed.

Lemma Rleb_false_inv : Rleb r s = false -> s < r.
Proof. unfold Rleb; destruct (Rle_dec r s); [discriminate | lra]. Qed.

End RealTests.

Lemma xsqrt_nonneg (r : R) : (0 <= r)%R -> xsqrt (Fin r) = Fin (sqrt r).
Proof.
  intro Hr; unfold xsqrt. destruct (Rlt_dec r 0); [lra | reflexivity].
Qed.

Lemma xsqrt_neg (r : R) : (r < 0)%R -> xsqrt (Fin r) = NaN.
Proof.
  intro Hr; unfold xsqrt. destruct (Rlt_dec r 0); [reflexivity | lra].
Qed.

(** Simplification of a call at real arguments: the tests that the
    hypotheses decide are rewritten, the rest is computed. *)
Ltac real_tests :=
  repeat first
    [ progress cbn [cmp lift1 lift2 andb orb negb bind fst snd]
    | rewrite Rleb_true by lra | rewrite Rleb_false by lra
    | rewrite Rltb_true by lra | rewrite Rltb_false by lra
    | rewrite Reqb_true by lra | rewrite Reqb_false by lra ].

Open Scope R_scope.

(** ** Arithmetic of the ellipse formulas *)

Section EllipseFacts.
Variables a e mu : R.
Hypothesis Ha : 0 < a.
Hypothesis He : 0 <= e < 1.
Hypothesis Hmu : 0 < mu.

Lemma energy_negative : - mu / (2 * a) < 0.
Proof.
  unfold Rdiv. rewrite <- Ropp_mult_distr_l.
  apply Ropp_lt_gt_0_contravar, Rmult_gt_0_compat; [lra |].
  apply Rinv_0_lt_compat; lra.
Qed.

Lemma radicand_positive : 0 < mu * a * (1 - e * e).
Proof.
  apply Rmult_lt_0_compat; [apply Rmult_lt_0_compat; assumption |].
  nra.
Qed.

Lemma momentum_positive : 0 < sqrt (mu * a * (1 - e * e)).
Proof. apply sqrt_lt_R0, radicand_positive. Qed.

Lemma axis_recovered : - mu / (2 * (- mu / (2 * a))) = a.
Proof. field; lra. Qed.
End EllipseFacts.

(** ** Ejercicio 7: the forward conversion *)

(** The call at real arguments, with the two guards left to decide. *)
Lemma ae2Eh_strict_unfold (a e mu : R) :
  Ej7.ae2Eh (Fin a) (Fin e) (Fin mu) =
  if Rleb a 0 then
    Raise (ValueError "> El semi-eje mayor debe ser positivo.")
  else if negb (Rleb 0 e && Rltb e 1) then
    Raise (ValueError
      "> La excentricidad debe estar entre 0 (incluido) y 1 (excluido).")
  else
    Return (Fin (- mu / (2 * a)), xsqrt (Fin (mu * a * (1 - e * e)))).
Proof.
  unfold Ej7.ae2Eh, truediv, pow2; cbn.
  destruct (Rleb a 0) eqn:Hle; [reflexivity |].
  apply Rleb_false_inv in Hle.
  destruct (negb (Rleb 0 e && Rltb e 1)); [reflexivity |].
  real_tests. reflexivity.
Qed.

Lemma ae2Eh_strict_accepts (a e mu : R) :
  0 < a -> 0 <= e < 1 ->
  Ej7.ae2Eh (Fin a) (Fin e) (Fin mu) =
  Return (Fin (- mu / (2 * a)), xsqrt (Fin (mu * a * (1 - e * e)))).
Proof.
  intros Ha He. rewrite ae2Eh_strict_unfold. real_tests. reflexivity.
Qed.


(** The guards and the formulas of the ellipse-only [ae2Eh], read off its
    control flow on any carrier, binary64 included. *)
Section StrictForwardFlow.
Context {T : Type} `{PyFloat T}.


End StrictForwardFlow.



(** C4 (amended). In exact real arithmetic, on [a > 0], [0 <= e < 1],
    [mu > 0] the ellipse-only [ae2Eh] returns a negative energy and a
    positive angular momentum; the circular orbit [e = 0] is accepted, with
    [epsilon = -mu / (2 a)] and [h = sqrt (mu a)]. *)
Theorem ae2Eh_strict_postcondition (a e mu : R) :
  0 < a -> 0 <= e < 1 -> 0 < mu ->
  (exists epsilon h : R,
     Ej7.ae2Eh (Fin a) (Fin e) (Fin mu) = Return (Fin epsilon, Fin h) /\
     epsilon < 0 /\ 0 < h) /\
  Ej7.ae2Eh (Fin a) (Fin 0) (Fin mu) =
  Return (Fin (- mu / (2 * a)), Fin (sqrt (mu * a))).
Proof.
  intros Ha He Hmu. split.
  - exists (- mu / (2 * a)), (sqrt (mu * a * (1 - e * e))).
    pose proof (radicand_positive a e mu Ha He Hmu) as Hrad.
    rewrite (ae2Eh_strict_accepts a e mu Ha He), xsqrt_nonneg by lra.
    split; [reflexivity |]. split.
    + apply energy_negative; assumption.
    + apply momentum_positive; assumption.
  - assert (Hma : 0 < mu * a) by (apply Rmult_lt_0_compat; assumption).
    rewrite (ae2Eh_strict_accepts a 0 mu Ha) by lra.
    replace (mu * a * (1 - 0 * 0)) with (mu * a) by ring.
    rewrite xsqrt_nonneg by lra. reflexivity.
Qed.

Lemma ae2Eh_strict_postcondition_witness :
  0 < 15000000 /\ 0 <= 6 / 10 < 1 /\ 0 < 398600000000000 /\
  (exists epsilon h : R,
     Ej7.ae2Eh (Fin 15000000) (Fin (6 / 10)) (Fin 398600000000000) =
     Return (Fin epsilon, Fin h) /\ epsilon < 0 /\ 0 < h).
Proof.
  assert (Ha : 0 < 15000000) by lra.
  assert (He : 0 <= 6 / 10 < 1) by lra.
  assert (Hmu : 0 < 398600000000000) by lra.
  split; [exact Ha |]. split; [exact He |]. split; [exact Hmu |].
  exact (proj1 (ae2Eh_strict_postcondition _ _ _ Ha He Hmu)).
Defined.

(** C4, as stated for every [a > 0], fails on floats at the ends of the
    range: at [a = 1e308] the product [2 * a] overflows and the energy
    returned is [-0.0], which is not negative. *)
Lemma ae2Eh_strict_binary64_energy_not_negative :
  PrimFloat.ltb 0 1e308 = true /\
  PrimFloat.leb 0 0.5 && PrimFloat.ltb 0.5 1 = true /\
  PrimFloat.ltb 0 3.986e14 = true /\
  ~ (exists epsilon h : float,
       Ej7.ae2Eh 1e308%float 0.5%float 3.986e14%float = Return (epsilon, h) /\
       PrimFloat.ltb epsilon 0 = true /\ PrimFloat.ltb 0 h = true).
Proof.
  split; [reflexivity |]. split; [reflexivity |]. split; [reflexivity |].
  intros (epsilon & h & Hrun & Heps & _).
  vm_compute in Hrun. injection Hrun as <- <-.
  vm_compute in Heps. discriminate.
Qed.

(** Nor is the angular momentum always positive there: the product
    [mu * a] can underflow to zero. *)
Example ae2Eh_strict_binary64_momentum_zero :
  Ej7.ae2Eh 1e-200%float 0.5%float 1e-200%float
  = Return ((-0.5)%float, 0%float).
Proof. vm_compute. reflexivity. Qed.

(** ** Ejercicio 7: the inverse conversion and the round trip *)

Lemma Eh2ae_strict_accepts (epsilon h mu : R) :
  epsilon < 0 -> 0 < h -> 0 < mu ->
  Ej7.Eh2ae (Fin epsilon) (Fin h) (Fin mu) =
  let a := - mu / (2 * epsilon) in
  let e2 := 1 - h * h / (mu * a) in
  if Rltb e2 0 then
    Raise (ValueError
      "> Los valores no representan una órbita elíptica válida.")
  else Return (Fin a, xsqrt (Fin e2)).
Proof.
  intros Heps Hh Hmu.
  assert (Ha : 0 < - mu / (2 * epsilon)).
  { replace (- mu / (2 * epsilon)) with (mu / (2 * - epsilon))
      by (field; lra).
    apply Rdiv_lt_0_compat; lra. }
  assert (Hma : 0 < mu * (- mu / (2 * epsilon)))
    by (apply Rmult_lt_0_compat; assumption).
  unfold Ej7.Eh2ae, truediv, pow2; cbn. real_tests. reflexivity.
Qed.

(** C1 (amended). In exact real arithmetic the round trip is the identity
    on the ellipse domain: for [a > 0], [0 <= e < 1], [mu > 0], [Eh2ae]
    applied to the pair that [ae2Eh a e mu] returns gives back [(a, e)]. *)
Theorem roundtrip_exact (a e mu : R) :
  0 < a -> 0 <= e < 1 -> 0 < mu ->
  (exists epsilon h : R,
     Ej7.ae2Eh (Fin a) (Fin e) (Fin mu) = Return (Fin epsilon, Fin h) /\
     Ej7.Eh2ae (Fin epsilon) (Fin h) (Fin mu) = Return (Fin a, Fin e)) /\
  Ej7.roundtrip (Fin a) (Fin e) (Fin mu) = Return (Fin a, Fin e).
Proof.
  intros Ha He Hmu.
  pose proof (energy_negative a mu Ha Hmu) as Heps.
  pose proof (momentum_positive a e mu Ha He Hmu) as Hh.
  pose proof (radicand_positive a e mu Ha He Hmu) as Hrad.
  assert (Hfwd : Ej7.ae2Eh (Fin a) (Fin e) (Fin mu) =
                 Return (Fin (- mu / (2 * a)),
                         Fin (sqrt (mu * a * (1 - e * e))))).
  { rewrite (ae2Eh_strict_accepts a e mu Ha He), xsqrt_nonneg by lra.
    reflexivity. }
  assert (Hinv : Ej7.Eh2ae (Fin (- mu / (2 * a)))
                   (Fin (sqrt (mu * a * (1 - e * e)))) (Fin mu) =
                 Return (Fin a, Fin e)).
  { rewrite (Eh2ae_strict_accepts _ _ mu Heps Hh Hmu). cbv zeta.
    rewrite (axis_recovered a mu Ha Hmu).
    assert (He2 : 1 - sqrt (mu * a * (1 - e * e))
                      * sqrt (mu * a * (1 - e * e)) / (mu * a) = e * e).
    { rewrite sqrt_sqrt by lra. field; lra. }
    rewrite He2.
    assert (Hsq : 0 <= e * e) by nra.
    real_tests. rewrite xsqrt_nonneg by lra.
    rewrite sqrt_square by lra. reflexivity. }
  split.
  - exists (- mu / (2 * a)), (sqrt (mu * a * (1 - e * e))).
    split; assumption.
  - unfold Ej7.roundtrip. rewrite Hfwd. exact Hinv.
Qed.

Lemma roundtrip_exact_witness :
  0 < 15000000 /\ 0 <= 6 / 10 < 1 /\ 0 < 398600000000000 /\
  Ej7.roundtrip (Fin 15000000) (Fin (6 / 10)) (Fin 398600000000000) =
  Return (Fin 15000000, Fin (6 / 10)).
Proof.
  assert (Ha : 0 < 15000000) by lra.
  assert (He : 0 <= 6 / 10 < 1) by lra.
  assert (Hmu : 0 < 398600000000000) by lra.
  split; [exact Ha |]. split; [exact He |]. split; [exact Hmu |].
  exact (proj2 (roundtrip_exact _ _ _ Ha He Hmu)).
Defined.

(** C1, as the specification states it for floats, fails: at
    [a = 7000 km], [e = 5e-9] the binary64 round trip returns the
    eccentricity [0], since [1 - e ** 2] already rounds to [1]. *)
Lemma roundtrip_binary64_not_within_tolerance :
  PrimFloat.ltb 0 7000e3 = true /\
  PrimFloat.leb 0 5e-9 && PrimFloat.ltb 5e-9 1 = true /\
  ~ (exists a' e' : float,
       Ej7.roundtrip 7000e3%float 5e-9%float 3.986e14%float
         = Return (a', e') /\
       within_rel 1e-9 a' 7000e3 = true /\
       within_rel 1e-9 e' 5e-9 = true).
Proof.
  split; [reflexivity |]. split; [reflexivity |].
  intros (a' & e' & Hrt & _ & Htol).
  vm_compute in Hrt. injection Hrt as <- <-.
  vm_compute in Htol. discriminate.
Qed.

(** The circular geostationary orbit is even rejected on the way back:
    the rounded [h ** 2 / (mu * a)] exceeds [1] by one unit in the last
    place. *)
Example roundtrip_binary64_circular_rejected :
  Ej7.roundtrip 42164e3%float 0%float 3.986e14%float =
  Raise (ValueError
    "> Los valores no representan una órbita elíptica válida.").
Proof. vm_compute. reflexivity. Qed.

Example roundtrip_binary64_demo :
  Ej7.roundtrip 1.5e7%float 0.6%float 3.986e14%float =
  Return (15000000, 0.59999999999999998)%float.
Proof. vm_compute. reflexivity. Qed.

(** ** The inverse conversions reject a non-positive angular momentum *)

Section MomentumGuard.
Context {T : Type} `{PyFloat T}.

(** C6. For every [epsilon], [mu] and every [h <= 0], both variants of
    [Eh2ae] raise the [ValueError] of the conversions and return no pair;
    in the ellipse-only variant the energy test comes first and raises
    the same kind of error. *)
Theorem Eh2ae_rejects_nonpositive_momentum (epsilon h mu : T) :
  leb h zero = true ->
  (invalid_orbit (Ej7.Eh2ae epsilon h mu) = true /\
   returns (Ej7.Eh2ae epsilon h mu) = false) /\
  (invalid_orbit (Ej8.Eh2ae epsilon h mu) = true /\
   returns (Ej8.Eh2ae epsilon h mu) = false).
Proof.
  intro Hh. unfold Ej7.Eh2ae, Ej8.Eh2ae. rewrite Hh.
  destruct (leb zero epsilon); repeat split; reflexivity.
Qed.
End MomentumGuard.

Lemma Eh2ae_rejects_nonpositive_momentum_witness :
  leb (-1)%float zero = true /\
  (invalid_orbit (Ej7.Eh2ae 1%float (-1)%float 3.986e14%float) = true /\
   returns (Ej7.Eh2ae 1%float (-1)%float 3.986e14%float) = false) /\
  (invalid_orbit (Ej8.Eh2ae 1%float (-1)%float 3.986e14%float) = true /\
   returns (Ej8.Eh2ae 1%float (-1)%float 3.986e14%float) = false).
Proof.
  split; [reflexivity |].
  exact (Eh2ae_rejects_nonpositive_momentum 1%float (-1)%float 3.986e14%float
           eq_refl).
Defined.

(** ** The test case of Ejercicio 7 *)

Lemma sqrt_between (lo x hi : R) :
  0 <= lo -> 0 <= hi -> lo * lo < x < hi * hi -> lo < sqrt x < hi.
Proof.
  intros Hlo Hhi [Hl Hu].
  assert (Hsq : 0 <= lo * lo) by nra.
  split.
  - rewrite <- (sqrt_square lo Hlo). apply sqrt_lt_1_alt; lra.
  - rewrite <- (sqrt_square hi Hhi). apply sqrt_lt_1_alt; lra.
Qed.

(** C8 (amended). At [a = 1.5e7 m], [e = 0.6], [mu = 3.986e14 m^3/s^2] the
    forward conversion returns [epsilon] equal to [-1.3287e7 J/kg] to five
    significant digits and [h] equal to [6.186e10 m^2/s] to four, both in
    binary64 (the run of the test case) and in exact arithmetic. *)
Theorem fixture_forward :
  (exists epsilon h : float,
     Ej7.ae2Eh 1.5e7%float 0.6%float 3.986e14%float = Return (epsilon, h) /\
     between (-1.32875e7) epsilon (-1.32865e7) = true /\
     between 6.1855e10 h 6.1865e10 = true) /\
  (exists epsilon h : R,
     Ej7.ae2Eh (Fin 15000000) (Fin (6 / 10)) (Fin 398600000000000) =
     Return (Fin epsilon, Fin h) /\
     -13287500 < epsilon < -13286500 /\
     61855000000 < h < 61865000000).
Proof.
  split.
  - exists (-13286666.666666666)%float, 61859194951.114586%float.
    repeat split; vm_compute; reflexivity.
  - exists (- 398600000000000 / (2 * 15000000)),
           (sqrt (398600000000000 * 15000000 * (1 - 6 / 10 * (6 / 10)))).
    split; [| split].
    + rewrite ae2Eh_strict_accepts by lra.
      rewrite xsqrt_nonneg by lra. reflexivity.
    + lra.
    + apply sqrt_between; lra.
Qed.

(** C8, as stated, fails on the angular momentum: the value returned at
    the fixture is not [6.928e9] to the digits quoted. *)
Lemma fixture_momentum_is_not_6928e9 :
  ~ (exists epsilon h : float,
       Ej7.ae2Eh 1.5e7%float 0.6%float 3.986e14%float = Return (epsilon, h) /\
       between (-1.32875e7) epsilon (-1.32865e7) = true /\
       between 6.9275e9 h 6.9285e9 = true).
Proof.
  intros (epsilon & h & Hrun & _ & Hh).
  vm_compute in Hrun. injection Hrun as <- <-.
  vm_compute in Hh. discriminate.
Qed.

(** ** Ejercicio 8: the forward conversion *)

Ltac decide_reals :=
  unfold Rleb, Rltb, Reqb;
  repeat match goal with
    | |- context [Rlt_dec ?x ?y] => destruct (Rlt_dec x y)
    | |- context [Rle_dec ?x ?y] => destruct (Rle_dec x y)
    | |- context [Req_dec_T ?x ?y] => destruct (Req_dec_T x y)
    end;
  cbn [andb orb negb bind].

Lemma ae2Eh_general_parabola (a mu : xreal) :
  Ej8.ae2Eh a (Fin 1) mu = Return (Fin 0, np_sqrt (mul mu a)).
Proof.
  unfold Ej8.ae2Eh; cbn. real_tests. reflexivity.
Qed.

Lemma ae2Eh_general_rejects (a e mu : R) :
  inconsistent a e ->
  invalid_orbit (Ej8.ae2Eh (Fin a) (Fin e) (Fin mu)) = true.
Proof.
  unfold inconsistent; intro Hbad.
  unfold Ej8.ae2Eh; cbn. decide_reals; try reflexivity; exfalso; lra.
Qed.

Lemma ae2Eh_general_accepts (a e mu : R) :
  ~ inconsistent a e -> e <> 1 ->
  Ej8.ae2Eh (Fin a) (Fin e) (Fin mu) =
  Return (Fin (- mu / (2 * a)),
          xsqrt (Fin (mu * Rabs a * Rabs (1 - e * e)))).
Proof.
  unfold inconsistent; intros Hok Hne.
  assert (Ha : a <> 0).
  { intro Ha0. apply Hok.
    destruct (Rlt_dec e 1); [right; left; lra | right; right; lra]. }
  unfold Ej8.ae2Eh, truediv, pow2; cbn.
  decide_reals; try reflexivity; exfalso; try lra; apply Hok; lra.
Qed.

(** The guards and the formulas of the general [ae2Eh], read off its
    control flow on any carrier, binary64 included. *)
Section GeneralForwardFlow.
Context {T : Type} `{PyFloat T}.


End GeneralForwardFlow.




(** C5. At [e = 1] the general [ae2Eh] reads [a] as the semi-latus-rectum
    [p] and returns [epsilon = 0], [h = sqrt (mu p)]; so it does at
    [p = 7000e3] for every [mu > 0], in exact arithmetic and in binary64
    alike. *)
Theorem ae2Eh_parabola (p mu : R) :
  Ej8.ae2Eh (Fin p) (Fin 1) (Fin mu) = Return (Fin 0, np_sqrt (Fin (mu * p))) /\
  (0 <= mu * p ->
   Ej8.ae2Eh (Fin p) (Fin 1) (Fin mu) = Return (Fin 0, Fin (sqrt (mu * p)))) /\
  (0 < mu ->
   Ej8.ae2Eh (Fin 7000000) (Fin 1) (Fin mu) =
   Return (Fin 0, Fin (sqrt (mu * 7000000)))) /\
  (forall m : float,
     Ej8.ae2Eh 7000e3%float 1%float m =
     Return (0%float, PrimFloat.sqrt (m * 7000e3))).
Proof.
  split; [| split; [| split]].
  - apply ae2Eh_general_parabola.
  - intro Hpos. rewrite ae2Eh_general_parabola. cbn.
    rewrite xsqrt_nonneg by assumption. reflexivity.
  - intro Hmu. rewrite ae2Eh_general_parabola. cbn.
    rewrite xsqrt_nonneg by lra. reflexivity.
  - intro m. reflexivity.
Qed.

Lemma ae2Eh_parabola_witness :
  0 < 398600000000000 /\
  Ej8.ae2Eh (Fin 7000000) (Fin 1) (Fin 398600000000000) =
  Return (Fin 0, Fin (sqrt (398600000000000 * 7000000))).
Proof.
  assert (Hmu : 0 < 398600000000000) by lra.
  split; [exact Hmu |].
  exact (proj1 (proj2 (proj2 (ae2Eh_parabola 0 398600000000000))) Hmu).
Defined.

(** C10. The parabolic branch of the general [ae2Eh] validates nothing about
    [a]: at [e = 1] the call returns for every [a], and for [mu > 0] and
    [a < 0] the angular momentum it returns is [nan], not a real number. *)
Theorem ae2Eh_parabola_unvalidated :
  (forall a mu : xreal,
     Ej8.ae2Eh a (Fin 1) mu = Return (Fin 0, np_sqrt (mul mu a))) /\
  (forall a mu : R,
     0 < mu -> a < 0 ->
     Ej8.ae2Eh (Fin a) (Fin 1) (Fin mu) = Return (Fin 0, NaN)) /\
  (forall a mu : float,
     Ej8.ae2Eh a 1%float mu = Return (0%float, PrimFloat.sqrt (mu * a))) /\
  Ej8.ae2Eh (-7000e3)%float 1%float 3.986e14%float = Return (0%float, nan).
Proof.
  split; [| split; [| split]].
  - apply ae2Eh_general_parabola.
  - intros a mu Hmu Ha. rewrite ae2Eh_general_parabola. cbn.
    rewrite xsqrt_neg by nra. reflexivity.
  - intros a mu. reflexivity.
  - vm_compute. reflexivity.
Qed.

Lemma ae2Eh_parabola_unvalidated_witness :
  0 < 398600000000000 /\ -7000000 < 0 /\
  Ej8.ae2Eh (Fin (-7000000)) (Fin 1) (Fin 398600000000000) =
  Return (Fin 0, NaN).
Proof.
  assert (Hmu : 0 < 398600000000000) by lra.
  assert (Ha : -7000000 < 0) by lra.
  split; [exact Hmu |]. split; [exact Ha |].
  exact (proj1 (proj2 ae2Eh_parabola_unvalidated) _ _ Hmu Ha).
Defined.

(** ** Ejercicio 8: the inverse conversion on a positive energy *)

Section HyperbolaFacts.
Variables epsilon h mu : R.
Hypothesis Hmu : 0 < mu.
Hypothesis Heps : 0 < epsilon.
Hypothesis Hh : 0 < h.

Lemma axis_negative : - mu / (2 * epsilon) < 0.
Proof. apply energy_negative; assumption. Qed.

Lemma discriminant_above_one :
  1 < 1 - h * h / (mu * (- mu / (2 * epsilon))).
Proof.
  pose proof axis_negative as Ha.
  replace (h * h / (mu * (- mu / (2 * epsilon))))
    with (- (h * h / (mu * (mu / (2 * epsilon))))) by (field; lra).
  assert (Hq : 0 < h * h / (mu * (mu / (2 * epsilon)))).
  { apply Rdiv_lt_0_compat; [nra |].
    apply Rmult_lt_0_compat; [assumption |].
    apply Rdiv_lt_0_compat; lra. }
  lra.
Qed.
End HyperbolaFacts.

(** C9 (amended). In exact real arithmetic, for [mu > 0], [epsilon > 0]
    and [h > 0] the general [Eh2ae] never reaches its negative-discriminant
    error: [a = -mu / (2 epsilon)] is negative,
    [e^2 = 1 - h^2 / (mu a)] exceeds [1], and the call returns [a < 0] and
    [e > 1]. *)
Theorem Eh2ae_hyperbola (epsilon h mu : R) :
  0 < mu -> 0 < epsilon -> 0 < h ->
  let a := - mu / (2 * epsilon) in
  let e2 := 1 - h * h / (mu * a) in
  1 < e2 /\
  Ej8.Eh2ae (Fin epsilon) (Fin h) (Fin mu) = Return (Fin a, Fin (sqrt e2)) /\
  a < 0 /\ 1 < sqrt e2.
Proof.
  intros Hmu Heps Hh a e2.
  pose proof (axis_negative epsilon mu Hmu Heps) as Ha.
  pose proof (discriminant_above_one epsilon h mu Hmu Heps Hh) as He2.
  fold a in Ha, He2. fold e2 in He2.
  assert (Hma : mu * a < 0) by nra.
  split; [exact He2 |]. split; [| split; [exact Ha |]].
  - unfold Ej8.Eh2ae, truediv, pow2; cbn. fold a.
    real_tests. fold a. real_tests. fold e2. real_tests.
    rewrite xsqrt_nonneg by lra. reflexivity.
  - rewrite <- sqrt_1 at 1. apply sqrt_lt_1_alt. lra.
Qed.

Lemma Eh2ae_hyperbola_witness :
  0 < 398600000000000 /\ 0 < 1000000 /\ 0 < 10000000000 /\
  Ej8.Eh2ae (Fin 1000000) (Fin 10000000000) (Fin 398600000000000) =
  Return (Fin (- 398600000000000 / (2 * 1000000)),
          Fin (sqrt (1 - 10000000000 * 10000000000
                         / (398600000000000
                            * (- 398600000000000 / (2 * 1000000)))))).
Proof.
  assert (Hmu : 0 < 398600000000000) by lra.
  assert (Heps : 0 < 1000000) by lra.
  assert (Hh : 0 < 10000000000) by lra.
  split; [exact Hmu |]. split; [exact Heps |]. split; [exact Hh |].
  exact (proj1 (proj2 (Eh2ae_hyperbola _ _ _ Hmu Heps Hh))).
Defined.

(** C9, as stated for every [mu > 0], [epsilon > 0], [h > 0], fails on
    floats: at [epsilon = 1], [h = 1] the term [h ** 2 / (mu * a)] is lost
    in the rounding of [1 - ...] and the eccentricity returned is [1], not
    above it. *)
Lemma Eh2ae_general_binary64_eccentricity_one :
  PrimFloat.ltb 0 3.986e14 = true /\
  PrimFloat.ltb 0 1 = true /\
  Ej8.Eh2ae 1%float 1%float 3.986e14%float
    = Return ((-199300000000000)%float, 1%float) /\
  ~ (exists a e : float,
       Ej8.Eh2ae 1%float 1%float 3.986e14%float = Return (a, e) /\
       PrimFloat.ltb a 0 = true /\ PrimFloat.ltb 1 e = true).
Proof.
  split; [reflexivity |]. split; [reflexivity |].
  split; [vm_compute; reflexivity |].
  intros (a & e & Hrun & _ & He).
  vm_compute in Hrun. injection Hrun as <- <-.
  vm_compute in He. discriminate.
Qed.

(** And the call does not always succeed there: the square of [h] can
    overflow, and [mu * a] can be zero. *)
Example Eh2ae_general_binary64_raises :
  Ej8.Eh2ae 1%float 1e200%float 3.986e14%float = Raise OverflowError /\
  Ej8.Eh2ae 1e308%float 1%float 3.986e14%float = Raise ZeroDivisionError.
Proof. split; vm_compute; reflexivity. Qed.

(** ** The sampled true anomaly of [plot_orbit] *)

Section Linspace.
Variables start stop : R.
Variable n : nat.

Lemma linspace_unfold :
  linspace start stop (S (S n)) =
  map (fun i => INR i * ((stop - start) / INR (S n)) + start) (seq 0 (S n))
    ++ [stop].
Proof. reflexivity. Qed.

Lemma linspace_first : hd_error (linspace start stop (S (S n))) = Some start.
Proof.
  rewrite linspace_unfold. cbn [seq map app hd_error].
  f_equal. change (INR 0) with 0. ring.
Qed.

Lemma linspace_last (d : R) : last (linspace start stop (S (S n))) d = stop.
Proof. rewrite linspace_unfold. apply last_last. Qed.

Lemma linspace_range :
  start <= stop ->
  Forall (fun t => start <= t <= stop) (linspace start stop (S (S n))).
Proof.
  intro Hle. rewrite linspace_unfold. apply Forall_app. split.
  - apply Forall_forall. intros t Hin.
    apply in_map_iff in Hin. destruct Hin as (i & <- & Hi).
    apply in_seq in Hi.
    assert (Hm : 0 < INR (S n)) by (apply lt_0_INR; lia).
    assert (Hi0 : 0 <= INR i) by apply pos_INR.
    assert (Him : INR i <= INR (S n)) by (apply le_INR; lia).
    set (m := INR (S n)) in *. set (k := INR i) in *.
    assert (Hstep : 0 <= (stop - start) / m).
    { apply Rmult_le_pos; [lra |]. left. apply Rinv_0_lt_compat. exact Hm. }
    assert (Hfull : m * ((stop - start) / m) = stop - start) by (field; lra).
    nra.
  - constructor; [lra | constructor].
Qed.
End Linspace.

Lemma PI_above_hundredth : 1 / 100 < PI.
Proof. pose proof PI2_1. lra. Qed.

(** C7 (amended). The ellipse-only [plot_orbit] samples the true anomaly
    over the closed interval [[0, 2 pi]], both ends included. The general
    [plot_orbit] samples [[-pi + 0.01, pi - 0.01]], inside [(-pi, pi)], for
    every input its [ae2Eh] accepts: parabolas and hyperbolas, and ellipses
    too. *)
Theorem plot_orbit_theta_domain (a e mu : R) :
  (0 < a -> 0 <= e < 1 ->
   exists fig : Ej7.figure,
     Ej7.plot_orbit (Fin a) (Fin e) (Fin mu) = Return fig /\
     hd_error (Ej7.theta fig) = Some 0 /\
     last (Ej7.theta fig) 0 = 2 * PI /\
     Forall (fun t => 0 <= t <= 2 * PI) (Ej7.theta fig)) /\
  (returns (Ej8.ae2Eh (Fin a) (Fin e) (Fin mu)) = true ->
   exists fig : Ej8.figure,
     Ej8.plot_orbit (Fin a) (Fin e) (Fin mu) = Return fig /\
     hd_error (Ej8.theta fig) = Some (- PI + 1 / 100) /\
     last (Ej8.theta fig) 0 = PI - 1 / 100 /\
     Forall (fun t => - PI < t < PI) (Ej8.theta fig)).
Proof.
  pose proof PI_above_hundredth as Hpi.
  split.
  - intros Ha He. unfold Ej7.plot_orbit.
    rewrite (ae2Eh_strict_accepts a e mu Ha He). cbn [bind].
    eexists. split; [reflexivity |]. cbn [Ej7.theta].
    split; [apply (linspace_first 0 (2 * PI) 598) |].
    split; [apply (linspace_last 0 (2 * PI) 598) |].
    apply (linspace_range 0 (2 * PI) 598). lra.
  - intro Hret. unfold Ej8.plot_orbit.
    destruct (Ej8.ae2Eh (Fin a) (Fin e) (Fin mu)) as [eh | err];
      [| discriminate].
    cbn [bind]. eexists. split; [reflexivity |]. cbn [Ej8.theta].
    split; [apply (linspace_first _ _ 598) |].
    split; [apply (linspace_last _ _ 598) |].
    pose proof (linspace_range (- PI + 1 / 100) (PI - 1 / 100) 598) as Hin.
    eapply Forall_impl; [| apply Hin; lra].
    cbv beta. intros t Ht. lra.
Qed.

Lemma plot_orbit_theta_domain_witness :
  0 < 15000000 /\ 0 <= 6 / 10 < 1 /\
  returns (Ej8.ae2Eh (Fin (-15000000)) (Fin 2) (Fin 398600000000000)) = true /\
  (exists fig : Ej7.figure,
     Ej7.plot_orbit (Fin 15000000) (Fin (6 / 10)) (Fin 398600000000000)
       = Return fig /\
     hd_error (Ej7.theta fig) = Some 0 /\
     last (Ej7.theta fig) 0 = 2 * PI /\
     Forall (fun t => 0 <= t <= 2 * PI) (Ej7.theta fig)) /\
  (exists fig : Ej8.figure,
     Ej8.plot_orbit (Fin (-15000000)) (Fin 2) (Fin 398600000000000)
       = Return fig /\
     hd_error (Ej8.theta fig) = Some (- PI + 1 / 100) /\
     last (Ej8.theta fig) 0 = PI - 1 / 100 /\
     Forall (fun t => - PI < t < PI) (Ej8.theta fig)).
Proof.
  assert (Ha : 0 < 15000000) by lra.
  assert (He : 0 <= 6 / 10 < 1) by lra.
  assert (Hret : returns (Ej8.ae2Eh (Fin (-15000000)) (Fin 2)
                            (Fin 398600000000000)) = true).
  { rewrite ae2Eh_general_accepts by (unfold inconsistent; lra). reflexivity. }
  split; [exact Ha |]. split; [exact He |]. split; [exact Hret |].
  split.
  - exact (proj1 (plot_orbit_theta_domain 15000000 (6 / 10) 398600000000000)
             Ha He).
  - exact (proj2 (plot_orbit_theta_domain (-15000000) 2 398600000000000)
             Hret).
Defined.

(** C7, as stated, fails for ellipses in the general variant: at
    [a = 1.5e7], [e = 0.6] its first sample is [-pi + 0.01], below [0],
    and its last is [pi - 0.01], not [2 pi]. *)
Lemma plot_orbit_general_ellipse_domain :
  6 / 10 < 1 /\
  exists fig : Ej8.figure,
    Ej8.plot_orbit (Fin 15000000) (Fin (6 / 10)) (Fin 398600000000000)
      = Return fig /\
    Ej8.tipo fig = "Elíptica"%string /\
    ~ Forall (fun t => 0 <= t <= 2 * PI) (Ej8.theta fig) /\
    last (Ej8.theta fig) 0 <> 2 * PI.
Proof.
  pose proof PI_above_hundredth as Hpi.
  split; [lra |].
  unfold Ej8.plot_orbit.
  rewrite ae2Eh_general_accepts by (unfold inconsistent; lra).
  cbn [bind]. eexists. split; [reflexivity |].
  cbn [Ej8.theta Ej8.tipo]. split; [| split].
  - cbn. real_tests. reflexivity.
  - intro Hall.
    pose proof (linspace_first (- PI + 1 / 100) (PI - 1 / 100) 598) as Hhd.
    destruct (linspace (- PI + 1 / 100) (PI - 1 / 100) 600) as [| t ts];
      [discriminate |].
    injection Hhd as ->. apply Forall_inv in Hall. lra.
  - rewrite (linspace_last _ _ 598). lra.
Qed.

(** * Further properties of the conversions *)

Lemma ae2Eh_strict_unfold_any (a e : R) (mu : xreal) :
  Ej7.ae2Eh (Fin a) (Fin e) mu =
  if Rleb a 0 then
    Raise (ValueError "> El semi-eje mayor debe ser positivo.")
  else if negb (Rleb 0 e && Rltb e 1) then
    Raise (ValueError
      "> La excentricidad debe estar entre 0 (incluido) y 1 (excluido).")
  else
    Return (quot (neg mu) (Fin (2 * a)),
            xsqrt (mul (mul mu (Fin a)) (Fin (1 - e * e)))).
Proof.
  unfold Ej7.ae2Eh, truediv, pow2; cbn.
  destruct (Rleb a 0) eqn:Hle; [reflexivity |].
  apply Rleb_false_inv in Hle.
  destruct (negb (Rleb 0 e && Rltb e 1)); [reflexivity |].
  real_tests. reflexivity.
Qed.

(** ** The inverse conversion of Ejercicio 7 *)

Section InverseFacts.
Variables epsilon h mu : R.
Hypothesis Heps : epsilon < 0.
Hypothesis Hh : 0 < h.
Hypothesis Hmu : 0 < mu.

Lemma axis_positive : 0 < - mu / (2 * epsilon).
Proof.
  replace (- mu / (2 * epsilon)) with (mu / (2 * - epsilon)) by (field; lra).
  apply Rdiv_lt_0_compat; lra.
Qed.

Lemma discriminant_form :
  1 - h * h / (mu * (- mu / (2 * epsilon)))
  = 1 + 2 * epsilon * (h * h) / (mu * mu).
Proof. field; lra. Qed.

Lemma discriminant_sign :
  1 + 2 * epsilon * (h * h) / (mu * mu) < 0
  <-> mu * mu < - 2 * epsilon * (h * h).
Proof.
  assert (Hmm : 0 < mu * mu) by nra.
  assert (Hq : 2 * epsilon * (h * h) / (mu * mu) * (mu * mu)
               = 2 * epsilon * (h * h)) by (field; lra).
  set (q := 2 * epsilon * (h * h) / (mu * mu)) in *.
  split; intro Hlt; nra.
Qed.

Lemma discriminant_below_one : 1 + 2 * epsilon * (h * h) / (mu * mu) < 1.
Proof.
  assert (Hmm : 0 < mu * mu) by nra.
  assert (Hq : 2 * epsilon * (h * h) / (mu * mu) * (mu * mu)
               = 2 * epsilon * (h * h)) by (field; lra).
  set (q := 2 * epsilon * (h * h) / (mu * mu)) in *.
  assert (Hhh : 0 < h * h) by nra.
  nra.
Qed.
End InverseFacts.

Lemma sqrt_unit_interval (x : R) : 0 <= x < 1 -> 0 <= sqrt x < 1.
Proof.
  intros [H0 H1]. split; [apply sqrt_pos |].
  apply Rlt_le_trans with (sqrt 1); [apply sqrt_lt_1_alt; lra |].
  rewrite sqrt_1. lra.
Qed.

Lemma Eh2ae_strict_rejects (epsilon h mu : R) :
  0 < mu ->
  0 <= epsilon \/ h <= 0 \/ mu * mu < - 2 * epsilon * (h * h) ->
  invalid_orbit (Ej7.Eh2ae (Fin epsilon) (Fin h) (Fin mu)) = true.
Proof.
  intros Hmu Hbad.
  destruct (Rle_dec 0 epsilon) as [Hge | Hlt].
  { unfold Ej7.Eh2ae; cbn. real_tests. reflexivity. }
  destruct (Rle_dec h 0) as [Hle | Hgt].
  { unfold Ej7.Eh2ae; cbn. real_tests. reflexivity. }
  assert (Heps : epsilon < 0) by lra. assert (Hh : 0 < h) by lra.
  destruct Hbad as [Hbad | [Hbad | Hbad]]; [lra | lra |].
  rewrite (Eh2ae_strict_accepts epsilon h mu Heps Hh Hmu). cbv zeta.
  rewrite (discriminant_form epsilon h mu Heps Hmu).
  apply (discriminant_sign epsilon h mu Hmu) in Hbad.
  real_tests. reflexivity.
Qed.

Lemma Eh2ae_strict_returns (epsilon h mu : R) :
  0 < mu -> epsilon < 0 -> 0 < h ->
  - 2 * epsilon * (h * h) <= mu * mu ->
  Ej7.Eh2ae (Fin epsilon) (Fin h) (Fin mu) =
  Return (Fin (- mu / (2 * epsilon)),
          Fin (sqrt (1 + 2 * epsilon * (h * h) / (mu * mu)))).
Proof.
  intros Hmu Heps Hh Hok.
  rewrite (Eh2ae_strict_accepts epsilon h mu Heps Hh Hmu). cbv zeta.
  rewrite (discriminant_form epsilon h mu Heps Hmu).
  assert (Hpos : 0 <= 1 + 2 * epsilon * (h * h) / (mu * mu)).
  { destruct (Rle_dec 0 (1 + 2 * epsilon * (h * h) / (mu * mu)));
      [assumption |].
    exfalso. assert (Hneg : 1 + 2 * epsilon * (h * h) / (mu * mu) < 0) by lra.
    apply (discriminant_sign epsilon h mu Hmu) in Hneg. lra. }
  real_tests. rewrite xsqrt_nonneg by assumption. reflexivity.
Qed.

(** X1. For [mu > 0] the ellipse-only [Eh2ae] raises its [ValueError]
    exactly when [epsilon >= 0], or [h <= 0], or the pair is too energetic
    for its angular momentum ([mu^2 < -2 epsilon h^2], the negative
    discriminant); in every other case it returns [a = -mu / (2 epsilon)],
    which is positive, and an eccentricity in [[0, 1)] whose square is
    [1 + 2 epsilon h^2 / mu^2]. *)
Theorem Eh2ae_strict_contract (epsilon h mu : R) :
  0 < mu ->
  (invalid_orbit (Ej7.Eh2ae (Fin epsilon) (Fin h) (Fin mu)) = true
     <-> 0 <= epsilon \/ h <= 0 \/ mu * mu < - 2 * epsilon * (h * h)) /\
  (~ (0 <= epsilon \/ h <= 0 \/ mu * mu < - 2 * epsilon * (h * h)) ->
   exists a e : R,
     Ej7.Eh2ae (Fin epsilon) (Fin h) (Fin mu) = Return (Fin a, Fin e) /\
     a = - mu / (2 * epsilon) /\ 0 < a /\ 0 <= e < 1 /\
     e * e = 1 + 2 * epsilon * (h * h) / (mu * mu)).
Proof.
  intro Hmu.
  assert (Hgood :
    ~ (0 <= epsilon \/ h <= 0 \/ mu * mu < - 2 * epsilon * (h * h)) ->
    exists a e : R,
      Ej7.Eh2ae (Fin epsilon) (Fin h) (Fin mu) = Return (Fin a, Fin e) /\
      a = - mu / (2 * epsilon) /\ 0 < a /\ 0 <= e < 1 /\
      e * e = 1 + 2 * epsilon * (h * h) / (mu * mu)).
  { intro Hok.
    assert (Heps : epsilon < 0) by lra. assert (Hh : 0 < h) by lra.
    assert (Hdisc : - 2 * epsilon * (h * h) <= mu * mu) by lra.
    pose proof (discriminant_below_one epsilon h mu Heps Hh Hmu) as Hlt1.
    assert (Hpos : 0 <= 1 + 2 * epsilon * (h * h) / (mu * mu)).
    { destruct (Rle_dec 0 (1 + 2 * epsilon * (h * h) / (mu * mu)));
        [assumption |].
      exfalso.
      assert (Hneg : 1 + 2 * epsilon * (h * h) / (mu * mu) < 0) by lra.
      apply (discriminant_sign epsilon h mu Hmu) in Hneg. lra. }
    exists (- mu / (2 * epsilon)),
           (sqrt (1 + 2 * epsilon * (h * h) / (mu * mu))).
    split; [apply Eh2ae_strict_returns; assumption |].
    split; [reflexivity |].
    split; [apply axis_positive; assumption |].
    split; [| apply sqrt_sqrt; assumption].
    apply sqrt_unit_interval. lra. }
  split; [split |]; [| apply Eh2ae_strict_rejects; assumption | exact Hgood].
  intro Hinv.
  destruct (Rle_dec 0 epsilon); [left; assumption |].
  destruct (Rle_dec h 0); [right; left; assumption |].
  destruct (Rlt_dec (mu * mu) (- 2 * epsilon * (h * h)));
    [right; right; assumption |].
  exfalso. destruct Hgood as (a & e & Hrun & _); [lra |].
  rewrite Hrun in Hinv. discriminate.
Qed.

Lemma Eh2ae_strict_contract_witness :
  0 < 398600000000000 /\
  ~ (0 <= -13286666 \/ 60000000000 <= 0
     \/ 398600000000000 * 398600000000000
        < - 2 * -13286666 * (60000000000 * 60000000000)) /\
  exists a e : R,
    Ej7.Eh2ae (Fin (-13286666)) (Fin 60000000000) (Fin 398600000000000)
      = Return (Fin a, Fin e) /\
    a = - 398600000000000 / (2 * -13286666) /\ 0 < a /\ 0 <= e < 1 /\
    e * e = 1 + 2 * -13286666 * (60000000000 * 60000000000)
                / (398600000000000 * 398600000000000).
Proof.
  assert (Hmu : 0 < 398600000000000) by lra.
  assert (Hok : ~ (0 <= -13286666 \/ 60000000000 <= 0
                   \/ 398600000000000 * 398600000000000
                      < - 2 * -13286666 * (60000000000 * 60000000000)))
    by lra.
  split; [exact Hmu |]. split; [exact Hok |].
  exact (proj2 (Eh2ae_strict_contract _ _ _ Hmu) Hok).
Defined.

(** X2. Whatever pair the ellipse-only [Eh2ae] returns for [mu > 0], the
    forward conversion accepts it and gives back the invariants it came
    from: [ae2Eh] after [Eh2ae] is the identity. *)
Theorem Eh2ae_then_ae2Eh_strict (epsilon h mu a e : R) :
  0 < mu ->
  Ej7.Eh2ae (Fin epsilon) (Fin h) (Fin mu) = Return (Fin a, Fin e) ->
  Ej7.ae2Eh (Fin a) (Fin e) (Fin mu) = Return (Fin epsilon, Fin h).
Proof.
  intros Hmu Hrun.
  assert (Hok : ~ (0 <= epsilon \/ h <= 0
                   \/ mu * mu < - 2 * epsilon * (h * h))).
  { intro Hbad. apply (Eh2ae_strict_rejects epsilon h mu Hmu) in Hbad.
    rewrite Hrun in Hbad. discriminate. }
  assert (Heps : epsilon < 0) by lra. assert (Hh : 0 < h) by lra.
  rewrite Eh2ae_strict_returns in Hrun by lra.
  injection Hrun as Ha He.
  pose proof (axis_positive epsilon mu Heps Hmu) as Hapos.
  pose proof (discriminant_below_one epsilon h mu Heps Hh Hmu) as Hlt1.
  assert (Hpos : 0 <= 1 + 2 * epsilon * (h * h) / (mu * mu)).
  { destruct (Rle_dec 0 (1 + 2 * epsilon * (h * h) / (mu * mu)));
      [assumption |].
    exfalso.
    assert (Hneg : 1 + 2 * epsilon * (h * h) / (mu * mu) < 0) by lra.
    apply (discriminant_sign epsilon h mu Hmu) in Hneg. lra. }
  assert (Hee : e * e = 1 + 2 * epsilon * (h * h) / (mu * mu))
    by (rewrite <- He; apply sqrt_sqrt; assumption).
  assert (He01 : 0 <= e < 1).
  { rewrite <- He. apply sqrt_unit_interval. lra. }
  rewrite ae2Eh_strict_accepts by lra.
  rewrite Hee, <- Ha.
  replace (- mu / (2 * (- mu / (2 * epsilon)))) with epsilon
    by (field; lra).
  replace (mu * (- mu / (2 * epsilon))
           * (1 - (1 + 2 * epsilon * (h * h) / (mu * mu))))
    with (h * h) by (field; lra).
  rewrite xsqrt_nonneg by nra. rewrite sqrt_square by lra. reflexivity.
Qed.

Lemma Eh2ae_then_ae2Eh_strict_witness :
  0 < 2 /\
  Ej7.Eh2ae (Fin (-1)) (Fin 1) (Fin 2)
    = Return (Fin (- 2 / (2 * -1)), Fin (sqrt (1 + 2 * -1 * (1 * 1) / (2 * 2))))
  /\
  Ej7.ae2Eh (Fin (- 2 / (2 * -1)))
            (Fin (sqrt (1 + 2 * -1 * (1 * 1) / (2 * 2)))) (Fin 2)
    = Return (Fin (-1), Fin 1).
Proof.
  assert (Hmu : 0 < 2) by lra.
  assert (Hrun : Ej7.Eh2ae (Fin (-1)) (Fin 1) (Fin 2)
                 = Return (Fin (- 2 / (2 * -1)),
                           Fin (sqrt (1 + 2 * -1 * (1 * 1) / (2 * 2)))))
    by (apply Eh2ae_strict_returns; lra).
  split; [exact Hmu |]. split; [exact Hrun |].
  exact (Eh2ae_then_ae2Eh_strict _ _ _ _ _ Hmu Hrun).
Defined.

(** ** Ejercicio 8 against Ejercicio 7 *)

(** X3. The general [ae2Eh] extends the ellipse-only one: on every input,
    [nan] included, that Ejercicio 7 accepts, Ejercicio 8 returns the same
    pair. *)
Theorem ae2Eh_general_extends_strict (a e mu : xreal) (eh : xreal * xreal) :
  Ej7.ae2Eh a e mu = Return eh -> Ej8.ae2Eh a e mu = Return eh.
Proof.
  destruct e as [e |].
  2:{ unfold Ej7.ae2Eh; cbn. destruct (cmp Rleb a 0); discriminate. }
  destruct a as [a |].
  - rewrite ae2Eh_strict_unfold_any.
    destruct (Rle_dec a 0) as [Hle | Hgt];
      [rewrite Rleb_true by assumption; discriminate |].
    rewrite Rleb_false by lra.
    destruct (Rle_dec 0 e) as [H0 | H0];
      [| rewrite (Rleb_false 0 e) by lra; discriminate].
    destruct (Rlt_dec e 1) as [H1 | H1];
      [| rewrite (Rltb_false e 1) by lra; rewrite andb_false_r; discriminate].
    real_tests. intros <-.
    unfold Ej8.ae2Eh, truediv, pow2; cbn. real_tests.
    assert (Hsq : 0 <= 1 - e * e) by nra.
    rewrite (Rabs_pos_eq a) by lra.
    rewrite (Rabs_pos_eq (1 - e * e)) by assumption.
    destruct mu; reflexivity.
  - unfold Ej7.ae2Eh, Ej8.ae2Eh, truediv, pow2; cbn.
    destruct (Rle_dec 0 e) as [H0 | H0];
      [| rewrite (Rleb_false 0 e) by lra; discriminate].
    destruct (Rlt_dec e 1) as [H1 | H1];
      [| rewrite (Rltb_false e 1) by lra; rewrite andb_false_r; discriminate].
    real_tests. intros <-. destruct mu; reflexivity.
Qed.

Lemma ae2Eh_general_extends_strict_witness :
  Ej7.ae2Eh (Fin 2) (Fin 0) (Fin 1)
    = Return (Fin (- 1 / (2 * 2)), xsqrt (Fin (1 * 2 * (1 - 0 * 0)))) /\
  Ej8.ae2Eh (Fin 2) (Fin 0) (Fin 1)
    = Return (Fin (- 1 / (2 * 2)), xsqrt (Fin (1 * 2 * (1 - 0 * 0)))).
Proof.
  assert (Hrun : Ej7.ae2Eh (Fin 2) (Fin 0) (Fin 1)
                 = Return (Fin (- 1 / (2 * 2)),
                           xsqrt (Fin (1 * 2 * (1 - 0 * 0)))))
    by (apply ae2Eh_strict_accepts; lra).
  split; [exact Hrun |].
  exact (ae2Eh_general_extends_strict _ _ _ _ Hrun).
Defined.

(** X4. So does the general [Eh2ae]: every pair that the ellipse-only
    inverse returns, on [nan] arguments too, the general inverse returns
    as well. *)
Theorem Eh2ae_general_extends_strict (epsilon h mu : xreal)
    (ae : xreal * xreal) :
  Ej7.Eh2ae epsilon h mu = Return ae -> Ej8.Eh2ae epsilon h mu = Return ae.
Proof.
  unfold Ej7.Eh2ae, Ej8.Eh2ae.
  destruct (leb h zero); [destruct (leb zero epsilon); discriminate |].
  destruct (leb zero epsilon) eqn:Hge; [discriminate |].
  assert (Hne : eqb epsilon zero = false).
  { destruct epsilon as [x |]; [| reflexivity].
    cbn in Hge |- *. apply Rleb_false_inv in Hge.
    apply Reqb_false. lra. }
  rewrite Hne.
  assert (Hsame : (if ltb zero epsilon
                   then truediv (neg mu) (mul two epsilon)
                   else truediv (neg mu) (mul two epsilon))
                  = truediv (neg mu) (mul two epsilon))
    by (destruct (ltb zero epsilon); reflexivity).
  rewrite Hsame.
  destruct (truediv (neg mu) (mul two epsilon)) as [a | err];
    cbn [bind]; [| trivial].
  destruct (pow2 h) as [h2 | err]; cbn [bind]; [| trivial].
  destruct (truediv h2 (mul mu a)) as [q | err]; cbn [bind]; [| trivial].
  destruct (ltb (sub one q) zero); [discriminate | trivial].
Qed.

Lemma Eh2ae_general_extends_strict_witness :
  Ej7.Eh2ae (Fin (-1)) (Fin 1) (Fin 2)
    = Return (Fin (- 2 / (2 * -1)),
              Fin (sqrt (1 + 2 * -1 * (1 * 1) / (2 * 2)))) /\
  Ej8.Eh2ae (Fin (-1)) (Fin 1) (Fin 2)
    = Return (Fin (- 2 / (2 * -1)),
              Fin (sqrt (1 + 2 * -1 * (1 * 1) / (2 * 2)))).
Proof.
  assert (Hrun : Ej7.Eh2ae (Fin (-1)) (Fin 1) (Fin 2)
                 = Return (Fin (- 2 / (2 * -1)),
                           Fin (sqrt (1 + 2 * -1 * (1 * 1) / (2 * 2)))))
    by (apply Eh2ae_strict_returns; lra).
  split; [exact Hrun |].
  exact (Eh2ae_general_extends_strict _ _ _ _ Hrun).
Defined.

(** ** Ejercicio 8: both conversions on every conic *)

Lemma Eh2ae_general_parabola (h mu : R) :
  0 < h -> mu <> 0 ->
  Ej8.Eh2ae (Fin 0) (Fin h) (Fin mu) = Return (Fin (h * h / mu), Fin 1).
Proof.
  intros Hh Hmu. unfold Ej8.Eh2ae, truediv, pow2; cbn. real_tests.
  try rewrite (Reqb_false mu 0 Hmu). reflexivity.
Qed.

Lemma Eh2ae_general_conic (epsilon h mu : R) :
  0 < h -> mu <> 0 -> epsilon <> 0 ->
  Ej8.Eh2ae (Fin epsilon) (Fin h) (Fin mu) =
  if Rltb (1 + 2 * epsilon * (h * h) / (mu * mu)) 0 then
    Raise (ValueError "> Los valores no representan una órbita válida.")
  else
    Return (Fin (- mu / (2 * epsilon)),
            xsqrt (Fin (1 + 2 * epsilon * (h * h) / (mu * mu)))).
Proof.
  intros Hh Hmu Heps.
  assert (H2e : 2 * epsilon <> 0) by lra.
  assert (Hma : mu * (- mu / (2 * epsilon)) <> 0).
  { intro H0. apply Rmult_integral in H0. destruct H0 as [H0 | H0];
      [contradiction |].
    apply (Rmult_eq_compat_r (2 * epsilon)) in H0.
    unfold Rdiv in H0. rewrite Rmult_assoc, Rinv_l in H0 by assumption.
    lra. }
  assert (Hform : 1 - h * h / (mu * (- mu / (2 * epsilon)))
                  = 1 + 2 * epsilon * (h * h) / (mu * mu))
    by (field; split; assumption).
  unfold Ej8.Eh2ae, truediv, pow2; cbn. real_tests.
  try rewrite (Reqb_false epsilon 0 Heps).
  destruct (Rltb 0 epsilon); real_tests;
    try rewrite (Reqb_false _ 0 Hma); real_tests.
  all: rewrite Hform; reflexivity.
Qed.

(** X5. For [mu > 0] the round trip of Ejercicio 8 is the identity on every
    conic it accepts: ellipses ([0 <= e < 1], [a > 0]), hyperbolas
    ([e > 1], [a < 0]), and parabolas ([e = 1]) with a positive
    semi-latus-rectum in the place of [a]. *)
Theorem roundtrip_general (a e mu : R) :
  0 < mu ->
  (0 <= e < 1 /\ 0 < a) \/ (e = 1 /\ 0 < a) \/ (1 < e /\ a < 0) ->
  exists epsilon h : R,
    Ej8.ae2Eh (Fin a) (Fin e) (Fin mu) = Return (Fin epsilon, Fin h) /\
    Ej8.Eh2ae (Fin epsilon) (Fin h) (Fin mu) = Return (Fin a, Fin e).
Proof.
  intros Hmu [[He Ha] | [[-> Ha] | [He Ha]]].
  - (* ellipse *)
    pose proof (radicand_positive a e mu Ha He Hmu) as Hrad.
    pose proof (energy_negative a mu Ha Hmu) as Heps.
    exists (- mu / (2 * a)), (sqrt (mu * a * (1 - e * e))).
    assert (Hh : 0 < sqrt (mu * a * (1 - e * e)))
      by (apply sqrt_lt_R0; assumption).
    split.
    + rewrite ae2Eh_general_accepts by (unfold inconsistent; lra).
      rewrite (Rabs_pos_eq a) by lra.
      rewrite (Rabs_pos_eq (1 - e * e)) by nra.
      rewrite xsqrt_nonneg by lra. reflexivity.
    + rewrite Eh2ae_general_conic by lra.
      rewrite sqrt_sqrt by lra.
      replace (1 + 2 * (- mu / (2 * a)) * (mu * a * (1 - e * e)) / (mu * mu))
        with (e * e) by (field; lra).
      replace (- mu / (2 * (- mu / (2 * a)))) with a by (field; lra).
      assert (Hee : 0 <= e * e) by nra.
      real_tests. rewrite xsqrt_nonneg by assumption.
      rewrite sqrt_square by lra. reflexivity.
  - (* parabola *)
    assert (Hmp : 0 < mu * a) by (apply Rmult_lt_0_compat; assumption).
    exists 0, (sqrt (mu * a)). split.
    + rewrite ae2Eh_general_parabola. cbn.
      rewrite xsqrt_nonneg by lra. reflexivity.
    + rewrite Eh2ae_general_parabola by (try apply sqrt_lt_R0; lra).
      rewrite sqrt_sqrt by lra.
      replace (mu * a / mu) with a by (field; lra). reflexivity.
  - (* hyperbola *)
    assert (Hrad : 0 < mu * - a * (e * e - 1)).
    { apply Rmult_lt_0_compat; [apply Rmult_lt_0_compat; lra | nra]. }
    exists (- mu / (2 * a)), (sqrt (mu * - a * (e * e - 1))).
    assert (Hh : 0 < sqrt (mu * - a * (e * e - 1)))
      by (apply sqrt_lt_R0; assumption).
    assert (Heps : - mu / (2 * a) <> 0).
    { intro H0. apply (Rmult_eq_compat_r (2 * a)) in H0.
      unfold Rdiv in H0. rewrite Rmult_assoc, Rinv_l in H0 by lra. lra. }
    split.
    + rewrite ae2Eh_general_accepts by (unfold inconsistent; lra).
      rewrite (Rabs_left a) by lra.
      rewrite (Rabs_left (1 - e * e)) by nra.
      replace (- (1 - e * e)) with (e * e - 1) by ring.
      rewrite xsqrt_nonneg by lra. reflexivity.
    + rewrite Eh2ae_general_conic by lra.
      rewrite sqrt_sqrt by lra.
      replace (1 + 2 * (- mu / (2 * a)) * (mu * - a * (e * e - 1))
                   / (mu * mu))
        with (e * e) by (field; lra).
      replace (- mu / (2 * (- mu / (2 * a)))) with a by (field; lra).
      assert (Hee : 0 <= e * e) by nra.
      real_tests. rewrite xsqrt_nonneg by assumption.
      rewrite sqrt_square by lra. reflexivity.
Qed.

Lemma roundtrip_general_witness :
  0 < 398600000000000 /\
  ((0 <= 2 < 1 /\ 0 < -15000000) \/ (2 = 1 /\ 0 < -15000000)
   \/ (1 < 2 /\ -15000000 < 0)) /\
  exists epsilon h : R,
    Ej8.ae2Eh (Fin (-15000000)) (Fin 2) (Fin 398600000000000)
      = Return (Fin epsilon, Fin h) /\
    Ej8.Eh2ae (Fin epsilon) (Fin h) (Fin 398600000000000)
      = Return (Fin (-15000000), Fin 2).
Proof.
  assert (Hmu : 0 < 398600000000000) by lra.
  assert (Hconic : (0 <= 2 < 1 /\ 0 < -15000000) \/ (2 = 1 /\ 0 < -15000000)
                   \/ (1 < 2 /\ -15000000 < 0)) by lra.
  split; [exact Hmu |]. split; [exact Hconic |].
  exact (roundtrip_general _ _ _ Hmu Hconic).
Defined.

Lemma xsqrt_Fin_inv (x y : R) :
  xsqrt (Fin x) = Fin y -> 0 <= x /\ y = sqrt x.
Proof.
  unfold xsqrt. destruct (Rlt_dec x 0); [discriminate |].
  intro Heq. injection Heq as <-. split; [lra | reflexivity].
Qed.

Lemma discriminant_nonneg (epsilon h mu : R) :
  0 < mu -> Rltb (1 + 2 * epsilon * (h * h) / (mu * mu)) 0 = false ->
  0 <= 1 + 2 * epsilon * (h * h) / (mu * mu).
Proof.
  intros Hmu Htest. unfold Rltb in Htest.
  destruct (Rlt_dec (1 + 2 * epsilon * (h * h) / (mu * mu)) 0);
    [discriminate | lra].
Qed.

Lemma discriminant_above_one_form (epsilon h mu : R) :
  0 < mu -> 0 < epsilon -> 0 < h ->
  1 < 1 + 2 * epsilon * (h * h) / (mu * mu).
Proof.
  intros Hmu Heps Hh.
  assert (Hq : 0 < 2 * epsilon * (h * h) / (mu * mu)).
  { apply Rdiv_lt_0_compat; [| nra].
    apply Rmult_lt_0_compat; [lra | nra]. }
  lra.
Qed.

Lemma Eh2ae_general_momentum (epsilon h mu : xreal) (ae : xreal * xreal) :
  Ej8.Eh2ae epsilon h mu = Return ae -> leb h zero = false.
Proof.
  unfold Ej8.Eh2ae. destruct (leb h zero); [discriminate | reflexivity].
Qed.

(** X6. For [mu > 0], whatever pair the general [Eh2ae] returns, on an
    ellipse, a parabola or a hyperbola, the general [ae2Eh] accepts it and
    gives back the energy and the angular momentum it came from. *)
Theorem Eh2ae_then_ae2Eh_general (epsilon h mu a e : R) :
  0 < mu ->
  Ej8.Eh2ae (Fin epsilon) (Fin h) (Fin mu) = Return (Fin a, Fin e) ->
  Ej8.ae2Eh (Fin a) (Fin e) (Fin mu) = Return (Fin epsilon, Fin h).
Proof.
  intros Hmu Hrun.
  assert (Hh : 0 < h).
  { pose proof (Eh2ae_general_momentum _ _ _ _ Hrun) as Hm.
    cbn in Hm. apply Rleb_false_inv in Hm. exact Hm. }
  destruct (Req_dec_T epsilon 0) as [-> | Hne].
  - rewrite Eh2ae_general_parabola in Hrun by lra.
    injection Hrun as <- <-.
    rewrite ae2Eh_general_parabola. cbn.
    replace (mu * (h * h / mu)) with (h * h) by (field; lra).
    rewrite xsqrt_nonneg by nra. rewrite sqrt_square by lra. reflexivity.
  - rewrite Eh2ae_general_conic in Hrun by lra.
    destruct (Rltb (1 + 2 * epsilon * (h * h) / (mu * mu)) 0) eqn:Htest;
      [discriminate |].
    pose proof (discriminant_nonneg epsilon h mu Hmu Htest) as Hpos.
    rewrite xsqrt_nonneg in Hrun by assumption.
    injection Hrun as Ha He.
    assert (Hee : e * e = 1 + 2 * epsilon * (h * h) / (mu * mu))
      by (rewrite <- He; apply sqrt_sqrt; assumption).
    destruct (Rlt_dec epsilon 0) as [Hneg | Hnn].
    + (* ellipse *)
      pose proof (axis_positive epsilon mu Hneg Hmu) as Hapos.
      pose proof (discriminant_below_one epsilon h mu Hneg Hh Hmu) as Hlt1.
      assert (He01 : 0 <= e < 1)
        by (rewrite <- He; apply sqrt_unit_interval; lra).
      rewrite ae2Eh_general_accepts by (unfold inconsistent; lra).
      rewrite Hee, <- Ha.
      rewrite (Rabs_pos_eq (- mu / (2 * epsilon))) by lra.
      rewrite (Rabs_pos_eq (1 - (1 + 2 * epsilon * (h * h) / (mu * mu))))
        by lra.
      replace (- mu / (2 * (- mu / (2 * epsilon)))) with epsilon
        by (field; lra).
      replace (mu * (- mu / (2 * epsilon))
               * (1 - (1 + 2 * epsilon * (h * h) / (mu * mu))))
        with (h * h) by (field; lra).
      rewrite xsqrt_nonneg by nra. rewrite sqrt_square by lra. reflexivity.
    + (* hyperbola *)
      assert (Hgt : 0 < epsilon) by lra.
      pose proof (axis_negative epsilon mu Hmu Hgt) as Haneg.
      pose proof (discriminant_above_one_form epsilon h mu Hmu Hgt Hh) as Hgt1.
      assert (He1 : 1 < e).
      { rewrite <- He. apply Rle_lt_trans with (sqrt 1);
          [rewrite sqrt_1; lra | apply sqrt_lt_1_alt; lra]. }
      rewrite ae2Eh_general_accepts by (unfold inconsistent; lra).
      rewrite Hee, <- Ha.
      rewrite (Rabs_left (- mu / (2 * epsilon))) by lra.
      rewrite (Rabs_left (1 - (1 + 2 * epsilon * (h * h) / (mu * mu))))
        by lra.
      replace (- mu / (2 * (- mu / (2 * epsilon)))) with epsilon
        by (field; lra).
      replace (mu * - (- mu / (2 * epsilon))
               * - (1 - (1 + 2 * epsilon * (h * h) / (mu * mu))))
        with (h * h) by (field; lra).
      rewrite xsqrt_nonneg by nra. rewrite sqrt_square by lra. reflexivity.
Qed.

Lemma Eh2ae_then_ae2Eh_general_witness :
  0 < 2 /\
  Ej8.Eh2ae (Fin 0) (Fin 4) (Fin 2) = Return (Fin (4 * 4 / 2), Fin 1) /\
  Ej8.ae2Eh (Fin (4 * 4 / 2)) (Fin 1) (Fin 2) = Return (Fin 0, Fin 4).
Proof.
  assert (Hmu : 0 < 2) by lra.
  assert (Hrun : Ej8.Eh2ae (Fin 0) (Fin 4) (Fin 2)
                 = Return (Fin (4 * 4 / 2), Fin 1))
    by (apply Eh2ae_general_parabola; lra).
  split; [exact Hmu |]. split; [exact Hrun |].
  exact (Eh2ae_then_ae2Eh_general _ _ _ _ _ Hmu Hrun).
Defined.

(** X7. For [mu > 0], every pair of reals that the general [ae2Eh] returns
    obeys the relation between the invariants and the shape,
    [e^2 = 1 + 2 epsilon h^2 / mu^2], and the sign of the energy tells the
    conic: negative on an ellipse, zero on a parabola, positive on a
    hyperbola; the angular momentum is never negative. *)
Theorem ae2Eh_general_invariants (a e mu epsilon h : R) :
  0 < mu ->
  Ej8.ae2Eh (Fin a) (Fin e) (Fin mu) = Return (Fin epsilon, Fin h) ->
  e * e = 1 + 2 * epsilon * (h * h) / (mu * mu) /\
  (e < 1 -> epsilon < 0) /\ (e = 1 -> epsilon = 0) /\
  (1 < e -> 0 < epsilon) /\ 0 <= h.
Proof.
  intros Hmu Hrun.
  destruct (Req_dec_T e 1) as [-> | Hne].
  - rewrite ae2Eh_general_parabola in Hrun. cbn in Hrun.
    injection Hrun as <- Hh. apply xsqrt_Fin_inv in Hh.
    destruct Hh as [_ ->].
    split; [field; lra |]. repeat split; try lra. apply sqrt_pos.
  - assert (Hok : ~ inconsistent a e).
    { intro Hbad. apply (ae2Eh_general_rejects a e mu) in Hbad.
      rewrite Hrun in Hbad. discriminate. }
    rewrite (ae2Eh_general_accepts a e mu Hok Hne) in Hrun.
    injection Hrun as Heps Hh. apply xsqrt_Fin_inv in Hh.
    destruct Hh as [Hrad Hh].
    assert (Hhh : h * h = mu * Rabs a * Rabs (1 - e * e))
      by (rewrite Hh; apply sqrt_sqrt; assumption).
    unfold inconsistent in Hok.
    destruct (Rlt_dec e 1) as [Hlt | Hge].
    + assert (Ha : 0 < a) by lra. assert (He : 0 <= e < 1) by lra.
      rewrite (Rabs_pos_eq a) in Hhh by lra.
      rewrite (Rabs_pos_eq (1 - e * e)) in Hhh by nra.
      pose proof (energy_negative a mu Ha Hmu) as Hneg.
      split; [rewrite Hhh, <- Heps; field; lra |].
      repeat split; try lra. rewrite Hh. apply sqrt_pos.
    + assert (He : 1 < e) by lra. assert (Ha : a < 0) by lra.
      rewrite (Rabs_left a) in Hhh by lra.
      rewrite (Rabs_left (1 - e * e)) in Hhh by nra.
      assert (Hpos : 0 < - mu / (2 * a)).
      { replace (- mu / (2 * a)) with (mu / (2 * - a)) by (field; lra).
        apply Rdiv_lt_0_compat; lra. }
      split; [rewrite Hhh, <- Heps; field; lra |].
      repeat split; try lra. rewrite Hh. apply sqrt_pos.
Qed.

Lemma ae2Eh_general_invariants_witness :
  0 < 2 /\
  Ej8.ae2Eh (Fin 8) (Fin 1) (Fin 2) = Return (Fin 0, Fin (sqrt (2 * 8))) /\
  1 * 1 = 1 + 2 * 0 * (sqrt (2 * 8) * sqrt (2 * 8)) / (2 * 2).
Proof.
  assert (Hmu : 0 < 2) by lra.
  assert (Hrun : Ej8.ae2Eh (Fin 8) (Fin 1) (Fin 2)
                 = Return (Fin 0, Fin (sqrt (2 * 8)))).
  { rewrite ae2Eh_general_parabola. cbn.
    rewrite xsqrt_nonneg by lra. reflexivity. }
  split; [exact Hmu |]. split; [exact Hrun |].
  exact (proj1 (ae2Eh_general_invariants _ _ _ _ _ Hmu Hrun)).
Defined.

(** ** Arguments outside the physical domain *)

(** X8. In exact real arithmetic, with [mu = 0] and [h > 0] neither
    inverse reaches its own error: the division by [mu * a] (by [mu] on
    the parabola) raises [ZeroDivisionError] instead of the [ValueError] of
    the conversions. On binary64 floats the parabolic branch does the same
    for every [h] above zero whose square does not overflow. *)
Theorem Eh2ae_zero_mu (epsilon h : R) :
  0 < h ->
  (epsilon < 0 ->
   Ej7.Eh2ae (Fin epsilon) (Fin h) (Fin 0) = Raise ZeroDivisionError) /\
  Ej8.Eh2ae (Fin epsilon) (Fin h) (Fin 0) = Raise ZeroDivisionError /\
  (forall x : float,
     PrimFloat.leb x 0 = false ->
     PrimFloat.is_infinity (x * x) && negb (PrimFloat.is_infinity x) = false ->
     Ej8.Eh2ae 0%float x 0%float = Raise ZeroDivisionError).
Proof.
  intro Hh. split; [| split].
  - intro Heps. unfold Ej7.Eh2ae, truediv, pow2; cbn. real_tests.
    reflexivity.
  - destruct (Req_dec_T epsilon 0) as [-> | Hne].
    + unfold Ej8.Eh2ae, truediv, pow2; cbn. real_tests. reflexivity.
    + unfold Ej8.Eh2ae, truediv, pow2; cbn. real_tests.
      destruct (Rltb 0 epsilon); real_tests; reflexivity.
  - intros x Hx Hsq. unfold Ej8.Eh2ae, truediv, pow2; cbn.
    unfold PrimFloat.is_infinity in Hsq. rewrite Hx, Hsq. reflexivity.
Qed.

Lemma Eh2ae_zero_mu_witness :
  0 < 1 /\ Ej8.Eh2ae (Fin 5) (Fin 1) (Fin 0) = Raise ZeroDivisionError.
Proof.
  assert (Hh : 0 < 1) by lra.
  split; [exact Hh |].
  exact (proj1 (proj2 (Eh2ae_zero_mu 5 1 Hh))).
Defined.

(** X9. A [nan] eccentricity is turned down by the ellipse-only [ae2Eh]
    but slips through every guard of the general one, which then returns
    a [nan] angular momentum (or divides by a zero [a]); so it is in exact
    arithmetic and on binary64 floats. *)
Theorem nan_eccentricity :
  (forall a mu : xreal, invalid_orbit (Ej7.ae2Eh a NaN mu) = true) /\
  (forall a mu : R,
     a <> 0 ->
     Ej8.ae2Eh (Fin a) NaN (Fin mu) = Return (Fin (- mu / (2 * a)), NaN)) /\
  (forall mu : R,
     Ej8.ae2Eh (Fin 0) NaN (Fin mu) = Raise ZeroDivisionError) /\
  (forall a mu : float,
     invalid_orbit (Ej7.ae2Eh a nan mu) = true /\
     invalid_orbit (Ej8.ae2Eh a nan mu) = false).
Proof.
  split; [| split; [| split]].
  - intros a mu. unfold Ej7.ae2Eh; cbn.
    destruct (cmp Rleb a 0); reflexivity.
  - intros a mu Ha. unfold Ej8.ae2Eh, truediv, pow2; cbn. real_tests.
    reflexivity.
  - intro mu. unfold Ej8.ae2Eh, truediv, pow2; cbn. real_tests.
    reflexivity.
  - intros a mu. split.
    + unfold Ej7.ae2Eh; cbn. destruct (PrimFloat.leb a 0); reflexivity.
    + unfold Ej8.ae2Eh, truediv, pow2; cbn.
      destruct (PrimFloat.eqb (2 * a) 0); reflexivity.
Qed.

Lemma nan_eccentricity_witness :
  15000000 <> 0 /\
  Ej8.ae2Eh (Fin 15000000) NaN (Fin 398600000000000)
    = Return (Fin (- 398600000000000 / (2 * 15000000)), NaN).
Proof.
  assert (Ha : 15000000 <> 0) by lra.
  split; [exact Ha |].
  exact (proj1 (proj2 nan_eccentricity) _ 398600000000000 Ha).
Defined.

(** * The curve of Ejercicio 7 *)

Section ListFacts.
Context {A B C : Type}.

Lemma combine_map_self (f : A -> B) (l : list A) :
  combine (map f l) l = map (fun t => (f t, t)) l.
Proof. induction l as [| t l IH]; cbn; [| rewrite IH]; reflexivity. Qed.

Lemma combine_map_map (f : A -> B) (g : A -> C) (l : list A) :
  combine (map f l) (map g l) = map (fun t => (f t, g t)) l.
Proof. induction l as [| t l IH]; cbn; [| rewrite IH]; reflexivity. Qed.

Lemma hd_error_map_some (f : A -> B) (l : list A) (t : A) :
  hd_error l = Some t -> hd_error (map f l) = Some (f t).
Proof.
  destruct l; cbn; [discriminate |].
  intro H; injection H as ->. reflexivity.
Qed.

Lemma last_map_snoc (f : A -> B) (l : list A) (t : A) (d : B) :
  last (map f (l ++ [t])) d = f t.
Proof. rewrite map_app. cbn [map]. apply last_last. Qed.
End ListFacts.

Section EllipsePoint.
Variables a e t : R.
Hypothesis Ha : 0 < a.
Hypothesis He : 0 <= e < 1.

Lemma denominator_positive : 1 - e <= 1 + e * cos t <= 1 + e.
Proof. pose proof (COS_bound t) as [Hlo Hhi]. split; nra. Qed.

Lemma radius_range :
  a * (1 - e) <= Ej7Curve.p a e / (1 + e * cos t) <= a * (1 + e).
Proof.
  pose proof denominator_positive as [Hlo Hhi].
  assert (Hd : 0 < 1 + e * cos t) by lra.
  unfold Ej7Curve.p.
  assert (Hr : a * (1 - e * e) / (1 + e * cos t) * (1 + e * cos t)
               = a * (1 - e * e)) by (field; lra).
  set (r := a * (1 - e * e) / (1 + e * cos t)) in *.
  assert (Hperi : 0 <= a * (1 - e)) by (apply Rmult_le_pos; lra).
  assert (Hapo : 0 <= a * (1 + e)) by (apply Rmult_le_pos; lra).
  split.
  - apply Rmult_le_reg_r with (1 + e * cos t); [exact Hd |].
    rewrite Hr. replace (a * (1 - e * e)) with (a * (1 - e) * (1 + e)) by ring.
    apply Rmult_le_compat_l; assumption.
  - apply Rmult_le_reg_r with (1 + e * cos t); [exact Hd |].
    rewrite Hr. replace (a * (1 - e * e)) with (a * (1 + e) * (1 - e)) by ring.
    apply Rmult_le_compat_l; assumption.
Qed.

Lemma point_on_ellipse :
  let r := Ej7Curve.p a e / (1 + e * cos t) in
  (1 - e * e) * ((r * cos t + a * e) * (r * cos t + a * e))
  + r * sin t * (r * sin t)
  = a * a * (1 - e * e).
Proof.
  pose proof denominator_positive as [Hlo Hhi].
  assert (Hd : 0 < 1 + e * cos t) by lra.
  intro r. unfold Ej7Curve.p in r.
  assert (Hr : r = a * (1 - e * e) - e * (r * cos t)).
  { unfold r. field. lra. }
  assert (Hs : sin t * sin t = 1 - cos t * cos t).
  { pose proof (sin2_cos2 t) as Hsc. unfold Rsqr in Hsc. lra. }
  set (X := r * cos t) in *.
  assert (Hy : r * sin t * (r * sin t) = r * r - X * X).
  { unfold X. replace (r * sin t * (r * sin t))
      with (r * r * (sin t * sin t)) by ring.
    rewrite Hs. ring. }
  rewrite Hy. rewrite Hr at 1 2. ring.
Qed.
End EllipsePoint.

Lemma curve_pointwise (a e : R) :
  Ej7Curve.curve a e =
  map (fun t =>
         (Ej7Curve.p a e / (1 + e * cos t) * cos t / 1000,
          Ej7Curve.p a e / (1 + e * cos t) * sin t / 1000))
      Ej7Curve.theta.
Proof.
  unfold Ej7Curve.curve, Ej7Curve.x, Ej7Curve.y, Ej7Curve.r.
  rewrite combine_map_self, !map_map, combine_map_map. reflexivity.
Qed.

(** X10. For [a > 0] and [0 <= e < 1], each of the 600 points that
    Ejercicio 7 hands to the plot lies on the ellipse of semi-major axis
    [a] and eccentricity [e] that has the central body, drawn at the
    origin, at a focus: in metres,
    [(1 - e^2) (x + a e)^2 + y^2 = a^2 (1 - e^2)]. *)
Theorem curve_on_ellipse (a e : R) :
  0 < a -> 0 <= e < 1 ->
  List.length (Ej7Curve.curve a e) = 600%nat /\
  Forall (fun xy =>
            (1 - e * e) * ((1000 * fst xy + a * e) * (1000 * fst xy + a * e))
            + 1000 * snd xy * (1000 * snd xy)
            = a * a * (1 - e * e))
         (Ej7Curve.curve a e).
Proof.
  intros Ha He. rewrite curve_pointwise. split.
  - rewrite length_map. unfold Ej7Curve.theta.
    rewrite (linspace_unfold 0 (2 * PI) 598).
    rewrite length_app, length_map, length_seq. reflexivity.
  - apply Forall_map, Forall_forall. intros t _. cbn [fst snd].
    pose proof (point_on_ellipse a e t He) as Hpt. cbv zeta in Hpt.
    pose proof (denominator_positive e t He) as [Hlo _].
    rewrite <- Hpt. field. lra.
Qed.

Lemma curve_on_ellipse_witness :
  0 < 15000000 /\ 0 <= 6 / 10 < 1 /\
  List.length (Ej7Curve.curve 15000000 (6 / 10)) = 600%nat.
Proof.
  assert (Ha : 0 < 15000000) by lra.
  assert (He : 0 <= 6 / 10 < 1) by lra.
  split; [exact Ha |]. split; [exact He |].
  exact (proj1 (curve_on_ellipse _ _ Ha He)).
Defined.

(** X11. For [a > 0] and [0 <= e < 1] every sampled radius lies between
    the periapsis [a (1 - e)] and the apoapsis [a (1 + e)]; in particular
    no division by zero occurs and no radius is negative. *)
Theorem curve_radius_range (a e : R) :
  0 < a -> 0 <= e < 1 ->
  Forall (fun r => 0 < a * (1 - e) <= r /\ r <= a * (1 + e))
         (Ej7Curve.r a e).
Proof.
  intros Ha He. unfold Ej7Curve.r.
  apply Forall_map, Forall_forall. intros t _.
  pose proof (radius_range a e t Ha He) as [Hlo Hhi].
  assert (Hperi : 0 < a * (1 - e)) by (apply Rmult_lt_0_compat; lra).
  repeat split; assumption.
Qed.

Lemma curve_radius_range_witness :
  0 < 15000000 /\ 0 <= 6 / 10 < 1 /\
  Forall (fun r => 0 < 15000000 * (1 - 6 / 10) <= r
                   /\ r <= 15000000 * (1 + 6 / 10))
         (Ej7Curve.r 15000000 (6 / 10)).
Proof.
  assert (Ha : 0 < 15000000) by lra.
  assert (He : 0 <= 6 / 10 < 1) by lra.
  split; [exact Ha |]. split; [exact He |].
  exact (curve_radius_range _ _ Ha He).
Defined.

(** * The console menu of Ejercicio 8 *)

Section GuardFacts.
Context {T : Type} `{PyFloat T}.

(** What the guards of the general [ae2Eh] have checked when it returns. *)
Lemma ae2Eh_general_guards (a e mu : T) (eh : T * T) :
  Ej8.ae2Eh a e mu = Return eh ->
  ltb e zero = false /\
  (eqb e one = false ->
   (ltb e one && leb a zero) || (ltb one e && leb zero a) = false).
Proof.
  unfold Ej8.ae2Eh.
  destruct (ltb e zero); [discriminate |].
  destruct (eqb e one); [intros _; split; [reflexivity | discriminate] |].
  destruct ((ltb e one && leb a zero) || (ltb one e && leb zero a));
    [discriminate |].
  intros _. split; reflexivity.
Qed.
End GuardFacts.

Section MenuFacts.
Variable to_float : string -> option float.
Variable to_float_error : string -> string.

Local Abbreviation menu := (Shell.menu to_float to_float_error).
Local Abbreviation float_ := (Shell.float_ to_float to_float_error).

Lemma lines_ind (P : list string -> Prop) :
  (forall lines,
     (forall rest, (List.length rest < List.length lines)%nat -> P rest) ->
     P lines) ->
  forall lines, P lines.
Proof.
  intros Hstep lines.
  assert (Hall : forall n l, (List.length l < n)%nat -> P l).
  { induction n as [| n IH]; intros l Hl; [lia |].
    apply Hstep. intros rest Hrest. apply IH. lia. }
  apply (Hall (S (List.length lines))). lia.
Qed.

Lemma snd_say (out : list Shell.event)
    (next : list Shell.event * Shell.ending) :
  snd (Shell.say out next) = snd next.
Proof. reflexivity. Qed.

Lemma fst_say (out : list Shell.event)
    (next : list Shell.event * Shell.ending) :
  fst (Shell.say out next) = out ++ fst next.
Proof. reflexivity. Qed.


(** The three ways out of the [try] statement. *)
Lemma try_except_cases (body : result (list Shell.event))
    (next : list Shell.event * Shell.ending) :
  (exists out, body = Return out
               /\ Shell.try_except body next = Shell.say out next) \/
  (exists msg, body = Raise (ValueError msg)
               /\ Shell.try_except body next
                  = Shell.say [Shell.Print ("Error: " ++ msg)] next) \/
  (exists err, body = Raise err /\ (forall msg, err <> ValueError msg)
               /\ Shell.try_except body next = ([], Shell.Uncaught err)).
Proof.
  destruct body as [out | [msg | |]].
  - left. exists out. split; reflexivity.
  - right; left. exists msg. split; reflexivity.
  - right; right. exists ZeroDivisionError.
    repeat split; [discriminate].
  - right; right. exists OverflowError.
    repeat split; [discriminate].
Qed.




Lemma in_fixed_output (a e : float) (texto : float * float)
    (out : list Shell.event) :
  Forall (fun ev => match ev with Shell.Show _ _ _ => False | _ => True end)
         out ->
  ~ In (Shell.Show a e texto) out.
Proof.
  intros Hall Hin. rewrite Forall_forall in Hall.
  apply (Hall _ Hin).
Qed.

Lemma plot_body_shows (ops : PyFloat float) (a e : float)
    (out : list Shell.event) (x y : float) (texto : float * float) :
  (shown <- Shell.plot_orbit ops a e ;; Return [shown]) = Return out ->
  In (Shell.Show x y texto) out ->
  @Ej8.ae2Eh float ops x y Shell.MU = Return texto.
Proof.
  unfold Shell.plot_orbit.
  destruct (@Ej8.ae2Eh float ops a e Shell.MU) as [t | err] eqn:Hrun;
    cbn [bind]; [| discriminate].
  intro Heq. injection Heq as <-. intros [Hin | []].
  injection Hin as <- <- <-. exact Hrun.
Qed.

(** X14. Every figure that a session shows is the figure of an orbit that
    the general [ae2Eh] accepted, with the pair it returned in the
    annotation: the eccentricity drawn is never negative, an ellipse is
    never drawn with [a <= 0] and a hyperbola never with [a >= 0]. *)
Theorem menu_shows_accepted_orbits (lines : list string)
    (a e : float) (texto : float * float) :
  In (Shell.Show a e texto) (fst (menu lines)) ->
  (@Ej8.ae2Eh float float_float a e Shell.MU = Return texto \/
   @Ej8.ae2Eh float numpy_operand a e Shell.MU = Return texto) /\
  PrimFloat.ltb e 0 = false /\
  (PrimFloat.eqb e 1 = false ->
   (PrimFloat.ltb e 1 && PrimFloat.leb a 0)
   || (PrimFloat.ltb 1 e && PrimFloat.leb 0 a) = false).
Proof.
  intro Hin.
  assert (Hrun : @Ej8.ae2Eh float float_float a e Shell.MU = Return texto \/
                 @Ej8.ae2Eh float numpy_operand a e Shell.MU = Return texto).
  { revert Hin. pattern lines. apply lines_ind. clear lines.
    intros lines IH.
    assert (Htry : forall body rest,
              (List.length rest < List.length lines)%nat ->
              (forall out, body = Return out ->
                 In (Shell.Show a e texto) out ->
                 @Ej8.ae2Eh float float_float a e Shell.MU = Return texto \/
                 @Ej8.ae2Eh float numpy_operand a e Shell.MU = Return texto) ->
              In (Shell.Show a e texto)
                 (fst (Shell.try_except body (menu rest))) ->
              @Ej8.ae2Eh float float_float a e Shell.MU = Return texto \/
              @Ej8.ae2Eh float numpy_operand a e Shell.MU = Return texto).
    { intros body rest Hlen Hbody.
      destruct (try_except_cases body (menu rest))
        as [(out & Hout & ->) | [(m & _ & ->) | (err & _ & _ & ->)]].
      - rewrite fst_say. intro Hin. apply in_app_or in Hin.
        destruct Hin as [Hin | Hin]; [apply (Hbody out Hout Hin) |].
        apply (IH rest Hlen Hin).
      - rewrite fst_say. intro Hin. apply in_app_or in Hin.
        destruct Hin as [[Hin | []] | Hin]; [discriminate |].
        apply (IH rest Hlen Hin).
      - intros []. }
    assert (Hfixed : forall out next,
              Forall (fun ev => match ev with
                                | Shell.Show _ _ _ => False
                                | _ => True
                                end) out ->
              In (Shell.Show a e texto) (fst (Shell.say out next)) ->
              In (Shell.Show a e texto) (fst next)).
    { intros out next Hall Hin. rewrite fst_say in Hin.
      apply in_app_or in Hin. destruct Hin as [Hin | Hin]; [| exact Hin].
      exfalso. apply (in_fixed_output a e texto out Hall Hin). }
    destruct lines as [| opcion rest].
    { cbn [Shell.menu]. intro Hin. apply Hfixed in Hin;
        [destruct Hin | repeat constructor]. }
    cbn [Shell.menu]. intro Hin. apply Hfixed in Hin; [| repeat constructor].
    revert Hin.
    destruct (opcion =? "1")%string.
    { intro Hin. apply Hfixed in Hin; [| repeat constructor]. revert Hin.
      destruct rest as [| sa rest1]; [intros [] |].
      destruct (float_ sa) as [x | err].
      - intro Hin. apply Hfixed in Hin; [| repeat constructor]. revert Hin.
        destruct rest1 as [| se rest2]; [intros [] |].
        apply Htry; [cbn; lia |].
        intros out Hout Hshow.
        destruct (float_ se) as [y | err]; cbn [bind] in Hout;
          [| discriminate].
        left. apply (plot_body_shows _ _ _ _ _ _ _ Hout Hshow).
      - apply Htry; [cbn; lia | discriminate]. }
    destruct (opcion =? "2")%string.
    { intro Hin. apply Hfixed in Hin; [| repeat constructor]. revert Hin.
      destruct rest as [| sa rest1]; [intros [] |].
      destruct (float_ sa) as [x | err].
      - intro Hin. apply Hfixed in Hin; [| repeat constructor]. revert Hin.
        destruct rest1 as [| se rest2]; [intros [] |].
        apply Htry; [cbn; lia |].
        intros out Hout Hshow.
        destruct (float_ se) as [y | err]; cbn [bind] in Hout;
          [| discriminate].
        destruct (@Ej8.Eh2ae float float_float x y Shell.MU) as [ae | err];
          cbn [bind] in Hout; [| discriminate].
        right. apply (plot_body_shows _ _ _ _ _ _ _ Hout Hshow).
      - apply Htry; [cbn; lia | discriminate]. }
    destruct (opcion =? "3")%string.
    { intros [Hin | []]. discriminate. }
    intro Hin. apply Hfixed in Hin; [| repeat constructor].
    apply (IH rest); [cbn; lia | exact Hin]. }
  split; [exact Hrun |].
  destruct Hrun as [Hrun | Hrun];
    apply ae2Eh_general_guards in Hrun; exact Hrun.
Qed.

(** X15. A session ends by the menu's own exit only if some typed line is
    the option ["3"]; and once that option is read, nothing typed after it
    is looked at. *)
Theorem menu_exit (lines : list string) :
  (snd (menu lines) = Shell.Exited -> In "3"%string lines) /\
  (forall rest : list string,
     menu ("3"%string :: rest) = menu ["3"%string] /\
     snd (menu ("3"%string :: rest)) = Shell.Exited).
Proof.
  split; [| intro rest; split; reflexivity].
  pattern lines. apply lines_ind. clear lines.
  intros lines IH.
  assert (Htry : forall body rest,
            (List.length rest < List.length lines)%nat ->
            snd (Shell.try_except body (menu rest)) = Shell.Exited ->
            In "3"%string rest).
  { intros body rest Hlen.
    destruct (try_except_cases body (menu rest))
      as [(out & _ & ->) | [(m & _ & ->) | (err & _ & _ & ->)]].
    - rewrite snd_say. apply IH. exact Hlen.
    - rewrite snd_say. apply IH. exact Hlen.
    - cbn. discriminate. }
  destruct lines as [| opcion rest]; [cbn; discriminate |].
  cbn [Shell.menu]. rewrite snd_say.
  destruct (opcion =? "1")%string.
  { rewrite snd_say. destruct rest as [| sa rest1]; [cbn; discriminate |].
    destruct (float_ sa).
    - rewrite snd_say. destruct rest1 as [| se rest2]; [cbn; discriminate |].
      intro Hend. apply Htry in Hend; [| cbn; lia]. cbn. tauto.
    - intro Hend. apply Htry in Hend; [| cbn; lia]. cbn. tauto. }
  destruct (opcion =? "2")%string.
  { rewrite snd_say. destruct rest as [| sa rest1]; [cbn; discriminate |].
    destruct (float_ sa).
    - rewrite snd_say. destruct rest1 as [| se rest2]; [cbn; discriminate |].
      intro Hend. apply Htry in Hend; [| cbn; lia]. cbn. tauto.
    - intro Hend. apply Htry in Hend; [| cbn; lia]. cbn. tauto. }
  destruct (opcion =? "3")%string eqn:Hthree.
  { intros _. apply String.eqb_eq in Hthree. left. exact Hthree. }
  rewrite snd_say. intro Hend. right. apply (IH rest); [cbn; lia | exact Hend].
Qed.

(** X16. What an exception of the conversion does to option 1: its
    [ValueError] is printed after the three prompts and the menu goes on
    with the lines that follow, as a fresh session would; any other
    exception ends the session there and then, and nothing typed after it
    is read. *)
Theorem menu_option_1_raises (sa se : string) (a e : float) (err : exn)
    (rest : list string) :
  to_float sa = Some a -> to_float se = Some e ->
  @Ej8.ae2Eh float float_float a e Shell.MU = Raise err ->
  let prompts :=
    Shell.banner
    ++ [Shell.Prompt (Shell.nl ++ "> Seleccione una opción: ");
        Shell.Prompt "> Ingrese el semi-eje mayor [m]: ";
        Shell.Prompt "> Ingrese la excentricidad: "] in
  match err with
  | ValueError msg =>
      menu ("1"%string :: sa :: se :: rest)
      = Shell.say (prompts ++ [Shell.Print ("Error: " ++ msg)]) (menu rest)
  | _ =>
      menu ("1"%string :: sa :: se :: rest) = (prompts, Shell.Uncaught err)
  end.
Proof.
  intros Hsa Hse Hrun prompts.
  assert (Hbody : (y <- float_ se ;;
                   shown <- Shell.plot_orbit float_float a y ;;
                   Return [shown]) = Raise err).
  { unfold Shell.float_, Shell.plot_orbit. rewrite Hse. cbn [bind].
    rewrite Hrun. reflexivity. }
  assert (Hmenu : menu ("1"%string :: sa :: se :: rest)
                  = Shell.say
                      (Shell.banner
                       ++ [Shell.Prompt
                             (Shell.nl ++ "> Seleccione una opción: ")])
                      (Shell.say
                         [Shell.Prompt "> Ingrese el semi-eje mayor [m]: "]
                         (Shell.say
                            [Shell.Prompt "> Ingrese la excentricidad: "]
                            (Shell.try_except (Raise err) (menu rest))))).
  { cbn [Shell.menu]. change ("1" =? "1")%string with true. cbv iota.
    unfold Shell.float_ at 1. rewrite Hsa. rewrite Hbody. reflexivity. }
  rewrite Hmenu. unfold prompts.
  destruct err as [msg | |]; cbn [Shell.try_except]; unfold Shell.say;
    cbn [fst snd]; rewrite <- ?app_assoc; reflexivity.
Qed.
End MenuFacts.

Lemma menu_option_1_raises_witness :
  to_float_demo "-1e7" = Some (-1e7)%float /\
  to_float_demo "1e200" = Some 1e200%float /\
  @Ej8.ae2Eh float float_float (-1e7)%float 1e200%float Shell.MU
    = Raise OverflowError /\
  snd (Shell.menu to_float_demo (fun s => s)
         ["1"; "-1e7"; "1e200"; "3"]%string)
    = Shell.Uncaught OverflowError.
Proof.
  assert (Hsa : to_float_demo "-1e7" = Some (-1e7)%float) by reflexivity.
  assert (Hse : to_float_demo "1e200" = Some 1e200%float) by reflexivity.
  assert (Hrun : @Ej8.ae2Eh float float_float (-1e7)%float 1e200%float
                   Shell.MU = Raise OverflowError) by reflexivity.
  split; [exact Hsa |]. split; [exact Hse |]. split; [exact Hrun |].
  exact (f_equal snd
           (menu_option_1_raises to_float_demo (fun s => s)
              "-1e7" "1e200" (-1e7)%float 1e200%float OverflowError
              ["3"%string] Hsa Hse Hrun)).
Defined.

Lemma menu_shows_accepted_orbits_witness :
  In (Shell.Show 1.5e7 0.6
        ((-13286666.666666666)%float, 61859194951.114586%float))
     (fst (Shell.menu to_float_demo (fun s => s)
             ["1"; "1.5e7"; "0.6"]%string)) /\
  PrimFloat.ltb 0.6 0 = false.
Proof.
  assert (Hin : In (Shell.Show 1.5e7 0.6
                      ((-13286666.666666666)%float,
                       61859194951.114586%float))
                   (fst (Shell.menu to_float_demo (fun s => s)
                           ["1"; "1.5e7"; "0.6"]%string))).
  { vm_compute. do 8 right. left. reflexivity. }
  split; [exact Hin |].
  exact (proj1 (proj2 (menu_shows_accepted_orbits to_float_demo (fun s => s)
                         _ _ _ _ Hin))).
Defined.

Lemma menu_exit_witness :
  snd (Shell.menu to_float_demo (fun s => s) ["9"; "3"; "1"]%string)
    = Shell.Exited /\
  In "3"%string ["9"; "3"; "1"]%string.
Proof.
  assert (Hend : snd (Shell.menu to_float_demo (fun s => s)
                        ["9"; "3"; "1"]%string) = Shell.Exited)
    by reflexivity.
  split; [exact Hend |].
  exact (proj1 (menu_exit to_float_demo (fun s => s) _) Hend).
Defined.


(** * The curve of Ejercicio 8 *)

Lemma Return_inj {A : Type} (x y : A) : Return x = Return y -> x = y.
Proof. intro Heq. injection Heq as ->. reflexivity. Qed.

Lemma np_div_Fin_inv (x y : xreal) (z : R) :
  Ej8Curve.np_div x y = Fin z ->
  exists u v : R, x = Fin u /\ y = Fin v /\ v <> 0 /\ z = u / v.
Proof.
  destruct x as [u |], y as [v |]; cbn; try discriminate.
  unfold Reqb. destruct (Req_dec_T v 0) as [Hz | Hnz]; [discriminate |].
  intro Heq. injection Heq as <-. exists u, v. repeat split; assumption.
Qed.

Lemma mask_Fin_inv (r : xreal) (z : R) :
  Ej8Curve.mask r = Fin z -> r = Fin z /\ z <= 100000000.
Proof.
  unfold Ej8Curve.mask. destruct r as [u |]; cbn; [| discriminate].
  unfold Rltb. destruct (Rlt_dec 100000000 u); [discriminate |].
  intro Heq. injection Heq as <-. split; [reflexivity | lra].
Qed.

Lemma mul_Fin_inv (x : xreal) (c z : R) :
  mul x (Fin c) = Fin z -> exists u : R, x = Fin u /\ z = u * c.
Proof.
  destruct x as [u |]; cbn; [| discriminate].
  intro Heq. injection Heq as <-. exists u. split; reflexivity.
Qed.

Lemma general_curve_pointwise (a e mu h : xreal) :
  combine (Ej8Curve.x a e mu h) (Ej8Curve.y a e mu h) =
  map (fun t =>
         let r := Ej8Curve.mask
                    (if eqb e one
                     then Ej8Curve.np_div (Ej8Curve.p a e mu h)
                            (Ej8Curve.np_add one (Fin (cos t)))
                     else Ej8Curve.np_div (Ej8Curve.p a e mu h)
                            (Ej8Curve.np_add one (mul e (Fin (cos t))))) in
         (Ej8Curve.np_div (mul r (Fin (cos t))) (Fin 1000),
          Ej8Curve.np_div (mul r (Fin (sin t))) (Fin 1000)))
      Ej8Curve.theta.
Proof.
  unfold Ej8Curve.x, Ej8Curve.y, Ej8Curve.r.
  rewrite combine_map_self, !map_map, combine_map_map. reflexivity.
Qed.

(** The relation between a radius and its point that every conic in polar
    form obeys. *)
Lemma polar_point_on_conic (P e t rho : R) :
  1 + e * cos t <> 0 -> rho = P / (1 + e * cos t) ->
  (1 - e * e) * (rho * cos t * (rho * cos t))
  + 2 * P * e * (rho * cos t) + rho * sin t * (rho * sin t)
  = P * P.
Proof.
  intros Hd Hrho.
  assert (Hr : rho = P - e * (rho * cos t)) by (rewrite Hrho; field; exact Hd).
  assert (Hs : sin t * sin t = 1 - cos t * cos t).
  { pose proof (sin2_cos2 t) as Hsc. unfold Rsqr in Hsc. lra. }
  set (X := rho * cos t) in *.
  assert (Hy : rho * sin t * (rho * sin t) = rho * rho - X * X).
  { unfold X. replace (rho * sin t * (rho * sin t))
      with (rho * rho * (sin t * sin t)) by ring.
    rewrite Hs. ring. }
  rewrite Hy. rewrite Hr at 1 2. ring.
Qed.

(** The semi-latus-rectum that [plot_orbit] works with, when it is a
    number: [a (1 - e^2)], and [a] itself on the parabola. *)
Lemma general_p_Fin (a e mu : R) (eh : xreal * xreal) (P : R) :
  Ej8.ae2Eh (Fin a) (Fin e) (Fin mu) = Return eh ->
  Ej8Curve.p (Fin a) (Fin e) (Fin mu) (snd eh) = Fin P ->
  P = if Req_dec_T e 1 then a else a * (1 - e * e).
Proof.
  intros Hrun. unfold Ej8Curve.p. cbn [eqb xreal_float one cmp].
  unfold Reqb at 1. destruct (Req_dec_T e 1) as [-> | Hne].
  - rewrite ae2Eh_general_parabola in Hrun. injection Hrun as <-.
    cbn [snd]. intro Hp. apply np_div_Fin_inv in Hp.
    destruct Hp as (u & v & Hu & Hv & Hnz & ->).
    injection Hv as <-.
    cbn [np_sqrt xreal_float mul lift2] in Hu.
    destruct (xsqrt (Fin (mu * a))) as [h0 |] eqn:Hh; [| discriminate].
    apply xsqrt_Fin_inv in Hh. destruct Hh as [Hpos ->].
    cbn in Hu. injection Hu as <-.
    rewrite sqrt_sqrt by assumption. field. exact Hnz.
  - cbn. intro Heq. injection Heq as <-. reflexivity.
Qed.

(** X17. Every finite point that Ejercicio 8 hands to the plot lies on
    the conic of the input, with the central body at the focus: in metres
    [(1 - e^2) x^2 + 2 p e x + y^2 = p^2], where [p = a (1 - e^2)], and
    [p = a] on the parabola. This holds for ellipses, parabolas and
    hyperbolas alike, and also for the points of a hyperbola whose radius
    is negative, which the mask [r > 1e8] lets through. *)
Theorem general_curve_on_conic (a e mu : R) (pts : list (xreal * xreal))
    (X Y : R) :
  Ej8Curve.curve (Fin a) (Fin e) (Fin mu) = Return pts ->
  In (Fin X, Fin Y) pts ->
  let p := if Req_dec_T e 1 then a else a * (1 - e * e) in
  (1 - e * e) * (1000 * X * (1000 * X)) + 2 * p * e * (1000 * X)
  + 1000 * Y * (1000 * Y)
  = p * p.
Proof.
  unfold Ej8Curve.curve.
  destruct (Ej8.ae2Eh (Fin a) (Fin e) (Fin mu)) as [eh | err] eqn:Hrun;
    cbn [bind]; [| discriminate].
  intro Heq. apply Return_inj in Heq. subst pts.
  rewrite general_curve_pointwise. intro Hin.
  apply in_map_iff in Hin. destruct Hin as (t & Hpt & _).
  cbv zeta in Hpt. injection Hpt as Hx Hy.
  apply np_div_Fin_inv in Hx. destruct Hx as (ux & vx & Hux & Hvx & _ & ->).
  apply np_div_Fin_inv in Hy. destruct Hy as (uy & vy & Huy & Hvy & _ & ->).
  injection Hvx as <-. injection Hvy as <-.
  apply mul_Fin_inv in Hux. destruct Hux as (rho & Hrho & ->).
  apply mul_Fin_inv in Huy. destruct Huy as (rho' & Hrho' & ->).
  rewrite Hrho in Hrho'. injection Hrho' as <-.
  apply mask_Fin_inv in Hrho. destruct Hrho as [Hrho _].
  set (p := if Req_dec_T e 1 then a else a * (1 - e * e)).
  assert (Hpolar : 1 + e * cos t <> 0 /\ rho = p / (1 + e * cos t)).
  { cbn [eqb xreal_float one cmp] in Hrho. unfold Reqb at 1 in Hrho.
    destruct (Req_dec_T e 1) as [He1 | Hne].
    - apply np_div_Fin_inv in Hrho.
      destruct Hrho as (u & v & Hu & Hv & Hnz & ->).
      apply (general_p_Fin a e mu eh u Hrun) in Hu.
      cbn in Hv. injection Hv as <-.
      subst p. destruct (Req_dec_T e 1) as [_ | Hne]; [| contradiction].
      subst u. rewrite He1. rewrite Rmult_1_l. split; [exact Hnz | reflexivity].
    - apply np_div_Fin_inv in Hrho.
      destruct Hrho as (u & v & Hu & Hv & Hnz & ->).
      apply (general_p_Fin a e mu eh u Hrun) in Hu.
      cbn in Hv. injection Hv as <-.
      subst p. destruct (Req_dec_T e 1) as [He1 | _]; [contradiction |].
      subst u. split; [exact Hnz | reflexivity]. }
  destruct Hpolar as [Hd Hrhoeq].
  pose proof (polar_point_on_conic p e t rho Hd Hrhoeq) as Hconic.
  cbv zeta. fold p. rewrite <- Hconic. field.
Qed.

Lemma general_ellipse_point (a e t : R) (mu h : xreal) :
  0 < a -> 0 <= e < 1 -> a * (1 + e) <= 100000000 ->
  (let r := Ej8Curve.mask
              (if eqb (Fin e) one
               then Ej8Curve.np_div (Ej8Curve.p (Fin a) (Fin e) mu h)
                      (Ej8Curve.np_add one (Fin (cos t)))
               else Ej8Curve.np_div (Ej8Curve.p (Fin a) (Fin e) mu h)
                      (Ej8Curve.np_add one (mul (Fin e) (Fin (cos t))))) in
   (Ej8Curve.np_div (mul r (Fin (cos t))) (Fin 1000),
    Ej8Curve.np_div (mul r (Fin (sin t))) (Fin 1000)))
  = (Fin (a * (1 - e * e) / (1 + e * cos t) * cos t / 1000),
     Fin (a * (1 - e * e) / (1 + e * cos t) * sin t / 1000)).
Proof.
  intros Ha He Hsmall.
  pose proof (denominator_positive e t He) as [Hlo _].
  pose proof (radius_range a e t Ha He) as [_ Hhi].
  unfold Ej7Curve.p in Hhi.
  cbv zeta. unfold Ej8Curve.p, Ej8Curve.mask, Ej8Curve.np_div,
    Ej8Curve.np_add. cbn. real_tests. reflexivity.
Qed.

Lemma general_curve_on_conic_witness :
  Ej8Curve.curve (Fin 2) (Fin 0) (Fin 1)
    = Return (combine (Ej8Curve.x (Fin 2) (Fin 0) (Fin 1)
                         (xsqrt (Fin (1 * Rabs 2 * Rabs (1 - 0 * 0)))))
                      (Ej8Curve.y (Fin 2) (Fin 0) (Fin 1)
                         (xsqrt (Fin (1 * Rabs 2 * Rabs (1 - 0 * 0)))))) /\
  In (Fin (2 * (1 - 0 * 0) / (1 + 0 * cos (PI - 1 / 100))
           * cos (PI - 1 / 100) / 1000),
      Fin (2 * (1 - 0 * 0) / (1 + 0 * cos (PI - 1 / 100))
           * sin (PI - 1 / 100) / 1000))
     (combine (Ej8Curve.x (Fin 2) (Fin 0) (Fin 1)
                 (xsqrt (Fin (1 * Rabs 2 * Rabs (1 - 0 * 0)))))
              (Ej8Curve.y (Fin 2) (Fin 0) (Fin 1)
                 (xsqrt (Fin (1 * Rabs 2 * Rabs (1 - 0 * 0)))))) /\
  (1 - 0 * 0)
  * (1000 * (2 * (1 - 0 * 0) / (1 + 0 * cos (PI - 1 / 100))
             * cos (PI - 1 / 100) / 1000)
     * (1000 * (2 * (1 - 0 * 0) / (1 + 0 * cos (PI - 1 / 100))
                * cos (PI - 1 / 100) / 1000)))
  + 2 * (if Req_dec_T 0 1 then 2 else 2 * (1 - 0 * 0)) * 0
    * (1000 * (2 * (1 - 0 * 0) / (1 + 0 * cos (PI - 1 / 100))
               * cos (PI - 1 / 100) / 1000))
  + 1000 * (2 * (1 - 0 * 0) / (1 + 0 * cos (PI - 1 / 100))
            * sin (PI - 1 / 100) / 1000)
    * (1000 * (2 * (1 - 0 * 0) / (1 + 0 * cos (PI - 1 / 100))
               * sin (PI - 1 / 100) / 1000))
  = (if Req_dec_T 0 1 then 2 else 2 * (1 - 0 * 0))
    * (if Req_dec_T 0 1 then 2 else 2 * (1 - 0 * 0)).
Proof.
  assert (Hrun : Ej8Curve.curve (Fin 2) (Fin 0) (Fin 1)
    = Return (combine (Ej8Curve.x (Fin 2) (Fin 0) (Fin 1)
                         (xsqrt (Fin (1 * Rabs 2 * Rabs (1 - 0 * 0)))))
                      (Ej8Curve.y (Fin 2) (Fin 0) (Fin 1)
                         (xsqrt (Fin (1 * Rabs 2 * Rabs (1 - 0 * 0))))))).
  { unfold Ej8Curve.curve.
    rewrite ae2Eh_general_accepts by (unfold inconsistent; lra).
    reflexivity. }
  assert (Hin :
    In (Fin (2 * (1 - 0 * 0) / (1 + 0 * cos (PI - 1 / 100))
             * cos (PI - 1 / 100) / 1000),
        Fin (2 * (1 - 0 * 0) / (1 + 0 * cos (PI - 1 / 100))
             * sin (PI - 1 / 100) / 1000))
       (combine (Ej8Curve.x (Fin 2) (Fin 0) (Fin 1)
                   (xsqrt (Fin (1 * Rabs 2 * Rabs (1 - 0 * 0)))))
                (Ej8Curve.y (Fin 2) (Fin 0) (Fin 1)
                   (xsqrt (Fin (1 * Rabs 2 * Rabs (1 - 0 * 0))))))).
  { rewrite general_curve_pointwise. apply in_map_iff.
    exists (PI - 1 / 100). split.
    - apply general_ellipse_point; lra.
    - unfold Ej8Curve.theta. rewrite (linspace_unfold _ _ 598).
      apply in_or_app. right. left. reflexivity. }
  split; [exact Hrun |]. split; [exact Hin |].
  exact (general_curve_on_conic 2 0 1 _ _ _ Hrun Hin).
Defined.

(** X18. In Ejercicio 8 an ellipse that fits under the mask
    ([a (1 + e) <= 1e8 m]) is drawn whole but left open: all 600 points
    are finite, and the first and the last are mirror images of one
    another on the two sides of the apoapsis, at a distance from the axis
    that is not zero. *)
Theorem general_ellipse_left_open (a e mu : R) :
  0 < a -> 0 <= e < 1 -> a * (1 + e) <= 100000000 ->
  exists (pts : list (xreal * xreal)) (x0 y0 : R),
    Ej8Curve.curve (Fin a) (Fin e) (Fin mu) = Return pts /\
    Forall (fun xy => exists X Y : R, xy = (Fin X, Fin Y)) pts /\
    hd_error pts = Some (Fin x0, Fin (- y0)) /\
    last pts (NaN, NaN) = (Fin x0, Fin y0) /\
    0 < y0.
Proof.
  intros Ha He Hsmall.
  set (apo := PI - 1 / 100).
  assert (Hapo : 0 < apo < PI)
    by (unfold apo; pose proof PI_above_hundredth; lra).
  set (rho := a * (1 - e * e) / (1 + e * cos apo)).
  assert (Hrho : 0 < rho).
  { pose proof (radius_range a e apo Ha He) as [Hlo _].
    unfold Ej7Curve.p in Hlo. fold rho in Hlo.
    assert (0 < a * (1 - e)) by (apply Rmult_lt_0_compat; lra). lra. }
  eexists. exists (rho * cos apo / 1000), (rho * sin apo / 1000).
  split.
  { unfold Ej8Curve.curve.
    rewrite ae2Eh_general_accepts by (unfold inconsistent; lra).
    cbn [bind snd]. reflexivity. }
  rewrite general_curve_pointwise.
  split; [| split; [| split]].
  - apply Forall_map, Forall_forall. intros t _.
    rewrite (general_ellipse_point a e t _ _ Ha He Hsmall).
    eexists. eexists. reflexivity.
  - rewrite (hd_error_map_some _ _ (- PI + 1 / 100)).
    + rewrite (general_ellipse_point a e _ _ _ Ha He Hsmall).
      replace (- PI + 1 / 100) with (- apo) by (unfold apo; ring).
      rewrite cos_neg, sin_neg. fold rho. do 2 f_equal. f_equal. field.
    + apply (linspace_first _ _ 598).
  - unfold Ej8Curve.theta. rewrite (linspace_unfold _ _ 598).
    rewrite last_map_snoc.
    rewrite (general_ellipse_point a e _ _ _ Ha He Hsmall). reflexivity.
  - apply Rdiv_lt_0_compat; [| lra].
    apply Rmult_lt_0_compat; [exact Hrho |].
    apply sin_gt_0; lra.
Qed.

Lemma general_ellipse_left_open_witness :
  0 < 15000000 /\ 0 <= 6 / 10 < 1 /\ 15000000 * (1 + 6 / 10) <= 100000000 /\
  exists (pts : list (xreal * xreal)) (x0 y0 : R),
    Ej8Curve.curve (Fin 15000000) (Fin (6 / 10)) (Fin 398600000000000)
      = Return pts /\
    Forall (fun xy => exists X Y : R, xy = (Fin X, Fin Y)) pts /\
    hd_error pts = Some (Fin x0, Fin (- y0)) /\
    last pts (NaN, NaN) = (Fin x0, Fin y0) /\
    0 < y0.
Proof.
  assert (Ha : 0 < 15000000) by lra.
  assert (He : 0 <= 6 / 10 < 1) by lra.
  assert (Hsmall : 15000000 * (1 + 6 / 10) <= 100000000) by lra.
  split; [exact Ha |]. split; [exact He |]. split; [exact Hsmall |].
  exact (general_ellipse_left_open _ _ 398600000000000 Ha He Hsmall).
Defined.
